(** * Electrostatic field, force and potential of point charges

    A shallow embedding of the computational core of three scripts:

    - [trabalho1_campos.py]  : [calcular_campo_eletrico], the energy sum
      [energia_total], the tangent [equacao_diferencial] and the field-line
      loop with its [try]/[except];
    - [trabalho2_forcas.py]  : [calcular_forca_coulomb];
    - [unnamed/part_000]     : [e_individual], [e_total], [potential], the
      energy [U], the tangent [ode] and the field-line loop.

    Numbers.  The scripts compute with binary64 floats.  Here every float is
    idealised as a real number ([R]) and every arithmetic operation as the
    exact one: rounding is outside the model.  What the model keeps is the
    structure of each computation: which charges enter a sum, the guards and
    their constants, the order of the loops, the Python values that come
    back, and the exceptions raised.  Every division the evaluators perform
    sits behind a guard on its divisor, so the value of [Rdiv] at zero plays
    no part in the results below. *)

From Stdlib Require Import Reals Lra Lia List ZArith String DecimalString.
From Stdlib Require Import Permutation.
Import ListNotations.
Local Open Scope R_scope.

(** ** numpy arrays of shape (3,) *)

Record Vec3 : Type := mkVec { vx : R; vy : R; vz : R }.

Declare Scope vec_scope.
Delimit Scope vec_scope with V.
Bind Scope vec_scope with Vec3.

Module Np.

(** [np.zeros(3)] *)
Definition zeros3 : Vec3 := mkVec 0 0 0.

(** [u + v], [u - v] on arrays *)
Definition add (u v : Vec3) : Vec3 :=
  mkVec (vx u + vx v) (vy u + vy v) (vz u + vz v).
Definition sub (u v : Vec3) : Vec3 :=
  mkVec (vx u - vx v) (vy u - vy v) (vz u - vz v).

(** [a * v] with [a] a scalar (broadcast) *)
Definition smul (a : R) (v : Vec3) : Vec3 :=
  mkVec (a * vx v) (a * vy v) (a * vz v).

(** [v / a] with [a] a scalar (broadcast) *)
Definition sdiv (v : Vec3) (a : R) : Vec3 :=
  mkVec (vx v / a) (vy v / a) (vz v / a).

(** [np.dot(u, v)] *)
Definition dot (u v : Vec3) : R :=
  vx u * vx v + vy u * vy v + vz u * vz v.

(** [np.linalg.norm(v)]: the 2-norm, [sqrt(dot(v, v))] *)
Definition norm (v : Vec3) : R := sqrt (dot v v).

(** [np.linspace(start, stop, num)]: [num] evenly spaced samples, the
    endpoint included, [start + i * step] with
    [step = (stop - start) / (num - 1)]. *)
Definition linspace (start stop : R) (num : nat) : list R :=
  let step := (stop - start) / INR (num - 1) in
  map (fun i => start + INR i * step) (seq 0 num).

End Np.

Infix "+" := Np.add : vec_scope.
Infix "-" := Np.sub : vec_scope.
Notation "a *: v" := (Np.smul a v) (at level 40, left associativity).
Notation "v /: a" := (Np.sdiv v a) (at level 40, left associativity).

(** Sums of lists, as the accumulating loops compute them. *)
Definition sumR (l : list R) : R := fold_right Rplus 0 l.
Definition sumV (l : list Vec3) : Vec3 := fold_right Np.add Np.zeros3 l.

(** ** Charges

    Every script keeps a charge as a dict; the evaluators read the keys
    ['q'] (coulombs) and ['pos'] (an array of shape (3,)) only. *)

Record Carga : Type := mkCarga { q : R; pos : Vec3 }.

(** Distance from a query point to a charge, [norm(p - c['pos'])]. *)
Definition dist (p : Vec3) (c : Carga) : R := Np.norm (p - pos c)%V.

(** Boolean view of [a <= b] on reals, for [filter]. *)
Definition Rleb (a b : R) : bool := if Rle_dec a b then true else false.

(** ** Python values and exceptions *)

Inductive exn : Type :=
| TypeError          (* a call that does not bind every parameter *)
| AxisError          (* numpy: axis out of bounds for the array *)
| SolverError (tag : nat).   (* whatever [solve_ivp] raises *)

Inductive result (A : Type) : Type :=
| Ok (a : A)
| Raise (e : exn).
Arguments Ok {A} a.
Arguments Raise {A} e.

Definition bind {A B} (m : result A) (k : A -> result B) : result B :=
  match m with
  | Ok a => k a
  | Raise e => Raise e
  end.

Notation "x <- m ;; k" := (bind m (fun x => k))
  (at level 61, m at next level, right associativity).

(** A list comprehension [[f(x) for x in xs]] whose body may raise: the
    first exception ends it. *)
Fixpoint mapM {A B} (f : A -> result B) (xs : list A) : result (list B) :=
  match xs with
  | [] => Ok []
  | x :: xs' => y <- f x ;; ys <- mapM f xs' ;; Ok (y :: ys)
  end.

(** The values [e_total] and [ode] of part_000 can produce. *)
Inductive pyval : Type :=
| PyInt (n : Z)
| PyFloat (x : R)
| PyArr (v : Vec3).

Module Py.

Definition bcast (x : R) : Vec3 := mkVec x x x.

(** [a + b]: int + int stays an int, a scalar is broadcast over an array. *)
Definition add (a b : pyval) : pyval :=
  match a, b with
  | PyInt m, PyInt n => PyInt (m + n)
  | PyInt m, PyFloat y => PyFloat (IZR m + y)
  | PyFloat x, PyInt n => PyFloat (x + IZR n)
  | PyFloat x, PyFloat y => PyFloat (x + y)
  | PyInt m, PyArr v => PyArr (bcast (IZR m) + v)
  | PyFloat x, PyArr v => PyArr (bcast x + v)
  | PyArr u, PyInt n => PyArr (u + bcast (IZR n))
  | PyArr u, PyFloat y => PyArr (u + bcast y)
  | PyArr u, PyArr v => PyArr (u + v)
  end.

(** The builtin [sum(iterable)]: starts from the int [0]. *)
Definition sum (xs : list pyval) : pyval := fold_left add xs (PyInt 0).

(** [np.linalg.norm(x)] on a scalar or an array of shape (3,). *)
Definition norm (a : pyval) : R :=
  match a with
  | PyInt n => Rabs (IZR n)
  | PyFloat x => Rabs x
  | PyArr v => Np.norm v
  end.

(** [a / d] with [d] a float. *)
Definition truediv (a : pyval) (d : R) : pyval :=
  match a with
  | PyInt n => PyFloat (IZR n / d)
  | PyFloat x => PyFloat (x / d)
  | PyArr v => PyArr (v /: d)
  end.

(** [t * a] with [t] a float. *)
Definition mul (t : R) (a : pyval) : pyval :=
  match a with
  | PyInt n => PyFloat (t * IZR n)
  | PyFloat x => PyFloat (t * x)
  | PyArr v => PyArr (t *: v)
  end.

End Py.

(** ** trabalho1_campos.py *)

Module Trabalho1.

Definition K_E : R := 8.9875517923e9.
Definition EPSILON_0 : R := 8.8541878128e-12.

(** One turn of the loop of [calcular_campo_eletrico]: [E] is the
    accumulator, [continue] leaves it as it is. *)
Definition campo_passo (posicao : Vec3) (E : Vec3) (carga : Carga) : Vec3 :=
  let vetor_r := (posicao - pos carga)%V in
  let distancia := Np.norm vetor_r in
  if Rlt_dec distancia 0.05 then E
  else (E + (K_E * q carga / distancia ^ 3) *: vetor_r)%V.

Definition calcular_campo_eletrico (posicao : Vec3) (cargas : list Carga)
  : Vec3 :=
  fold_left (campo_passo posicao) cargas Np.zeros3.

(** The energy estimate of the script: three nested loops over
    [pontos_amostra], then the scaling. *)
Definition pontos_amostra : list R := Np.linspace (-2) 2 8.

Definition energia_soma (cargas : list Carga) : R :=
  fold_left (fun acc x =>
    fold_left (fun acc y =>
      fold_left (fun acc z =>
        let E := calcular_campo_eletrico (mkVec x y z) cargas in
        acc + Np.dot E E)
      pontos_amostra acc)
    pontos_amostra acc)
  pontos_amostra 0.

Definition energia_total (cargas : list Carga) : R :=
  energia_soma cargas * (0.5 * EPSILON_0 * (4 / 7) ^ 3).

(** The right-hand side of the field-line equation; the [else] branch is
    the list [[0, 0, 0]]. *)
Definition equacao_diferencial (cargas : list Carga) (t : R) (pos : Vec3)
  : Vec3 :=
  let E := calcular_campo_eletrico pos cargas in
  let norma := Np.norm E in
  if Rgt_dec norma 1e-6 then E /: norma else mkVec 0 0 0.

End Trabalho1.

(** A call [f(a, b)] of a function [def f(a, b)] with two required
    positional parameters; [None] stands for an argument the call site does
    not pass.  Python binds the arguments before it runs the body and raises
    [TypeError] when a parameter is left unbound. *)
Definition call2 {A B C} (f : A -> B -> C) (a : option A) (b : option B)
  : result C :=
  match a, b with
  | Some x, Some y => Ok (f x y)
  | _, _ => Raise TypeError
  end.

(** A drawn figure, as far as the field lines go: the polylines added with
    [fig.add_trace], oldest first. *)
Definition Linha : Type := list Vec3.
Definition Fig : Type := list Linha.

(** The type of [scipy.integrate.solve_ivp] as the scripts call it:
    right-hand side, [t_span], initial point, [t_eval]; it returns the
    sampled trajectory or raises. *)
Definition Solver : Type :=
  (R -> Vec3 -> result pyval) -> R * R -> Vec3 -> list R -> result Linha.

Module Trabalho1Linhas.
Import Trabalho1.

Section Linhas.

(** The state of numpy's global random generator, and one draw of a
    direction: [direcao = np.random.randn(3)] followed by
    [direcao /= np.linalg.norm(direcao)]. *)
Variable rng : Type.
Variable direcao_aleatoria : rng -> Vec3 * rng.
Variable solve_ivp : Solver.

Definition n_linhas : nat := 12.

(** One turn of [for _ in range(n_linhas)]: draw the seed, integrate
    inside [try], add the trace; [except: pass] keeps the figure. *)
Definition linha_passo (cargas : list Carga) (carga : Carga)
           (st : Fig * rng) : Fig * rng :=
  let '(fig, g) := st in
  let '(direcao, g') := direcao_aleatoria g in
  let ponto_inicial := (pos carga + 0.2 *: direcao)%V in
  match solve_ivp
          (fun t y => Ok (PyArr (equacao_diferencial cargas t y)))
          (0, 8) ponto_inicial (Np.linspace 0 8 50) with
  | Ok solucao => (fig ++ [solucao], g')
  | Raise _ => (fig, g')
  end.

Fixpoint repetir (n : nat) (f : Fig * rng -> Fig * rng) (st : Fig * rng)
  : Fig * rng :=
  match n with
  | O => st
  | S n' => repetir n' f (f st)
  end.

(** [for carga in cargas: if carga['q'] > 0: for _ in range(12): ...] *)
Definition linhas_de_campo (cargas : list Carga) (st : Fig * rng)
  : Fig * rng :=
  fold_left
    (fun st carga =>
       if Rgt_dec (q carga) 0
       then repetir n_linhas (linha_passo cargas carga) st
       else st)
    cargas st.

(** The seeds the loop draws, in order, with the generator state it
    leaves: [ponto_inicial = carga['pos'] + 0.2 * direcao], twelve for each
    positive charge. *)
Fixpoint sementes_carga (n : nat) (carga : Carga) (g : rng)
  : list Vec3 * rng :=
  match n with
  | O => ([], g)
  | S n' =>
      let '(direcao, g') := direcao_aleatoria g in
      let '(l, g'') := sementes_carga n' carga g' in
      ((pos carga + 0.2 *: direcao)%V :: l, g'')
  end.

Fixpoint sementes (cargas : list Carga) (g : rng) : list Vec3 * rng :=
  match cargas with
  | [] => ([], g)
  | carga :: resto =>
      if Rgt_dec (q carga) 0
      then
        let '(l1, g1) := sementes_carga n_linhas carga g in
        let '(l2, g2) := sementes resto g1 in
        (l1 ++ l2, g2)
      else sementes resto g
  end.

(** The integration of one seed, as the loop calls it. *)
Definition integrar (cargas : list Carga) (ponto_inicial : Vec3)
  : result Linha :=
  solve_ivp (fun t y => Ok (PyArr (equacao_diferencial cargas t y)))
            (0, 8) ponto_inicial (Np.linspace 0 8 50).

End Linhas.

End Trabalho1Linhas.

(** ** trabalho2_forcas.py *)

Module Trabalho2.

Definition K_E : R := 8.9875517923e9.

(** A fixed charge carries the key ['nome'] besides ['q'] and ['pos']. *)
Record CargaFixa : Type := mkFixa { carga :> Carga; nome : string }.

(** An entry of the returned list [forcas]. *)
Record Forca : Type :=
  mkForca { origem : string; vetor : Vec3; magnitude : R }.

(** The body of the loop of [calcular_forca_coulomb] for one charge. *)
Definition forca_de (q_teste : R) (pos_teste : Vec3) (c : CargaFixa)
  : Forca :=
  let vetor_r := (pos_teste - pos c)%V in
  let distancia := Np.norm vetor_r in
  let distancia := if Rlt_dec distancia 0.01 then 0.01 else distancia in
  let vetor_unitario := vetor_r /: distancia in
  let magnitude := K_E * Rabs (q_teste * q c) / distancia ^ 2 in
  let vetor_forca :=
    if Rgt_dec (q_teste * q c) 0
    then magnitude *: vetor_unitario
    else (- magnitude) *: vetor_unitario in
  mkForca (nome c) vetor_forca magnitude.

Definition calcular_forca_coulomb (q_teste : R) (pos_teste : Vec3)
           (cargas_fixas : list CargaFixa) : list Forca * Vec3 :=
  fold_left
    (fun '(forcas, forca_resultante) c =>
       let f := forca_de q_teste pos_teste c in
       (forcas ++ [f], (forca_resultante + vetor f)%V))
    cargas_fixas ([], Np.zeros3).

End Trabalho2.

(** ** unnamed/part_000 *)

Module Part000.

Definition k_e : R := 8.99e9.
Definition epsilon_0 : R := 1 / (4 * PI * k_e).

Definition e_individual (p : Vec3) (charge : Carga) : Vec3 :=
  let r_vec := (p - pos charge)%V in
  let r := Np.norm r_vec in
  if Rlt_dec r 1e-8 then Np.zeros3
  else ((k_e * q charge) *: r_vec) /: (r ^ 3).

(** [sum(e_individual(pos, c) for c in charges)] *)
Definition e_total (p : Vec3) (charges : list Carga) : pyval :=
  Py.sum (map (fun c => PyArr (e_individual p c)) charges).

Definition potential_step (p : Vec3) (V : R) (c : Carga) : R :=
  let r := Np.norm (p - pos c)%V in
  if Rlt_dec r 1e-8 then V else V + k_e * q c / r.

Definition potential (p : Vec3) (charges : list Carga) : R :=
  fold_left (potential_step p) charges 0.

(** The energy block of the script. *)
Definition grid_size_energy : nat := 20.
Definition x_range : list R := Np.linspace (-2) 2 grid_size_energy.

(** [X, Y, Z = np.meshgrid(x, x, x)] and
    [np.column_stack((X.ravel(), Y.ravel(), Z.ravel()))]: with the default
    ['xy'] indexing the first axis runs over y, the second over x and the
    third over z. *)
Definition column_stack_meshgrid (xs : list R) : list Vec3 :=
  flat_map (fun y =>
    flat_map (fun x => map (fun z => mkVec x y z) xs) xs) xs.

Definition points_energy : list Vec3 := column_stack_meshgrid x_range.

(** A row of the array handed to [np.linalg.norm(E_values, axis=1)]: the
    array is two-dimensional only when every entry is an array. *)
Definition as_row (a : pyval) : result Vec3 :=
  match a with
  | PyArr v => Ok v
  | _ => Raise AxisError
  end.

(** The script calls [e_total(p)]: one argument. *)
Definition U : result R :=
  E_values <- mapM (fun p => call2 e_total (Some p) None) points_energy ;;
  let dV := (4 / INR (grid_size_energy - 1)) ^ 3 in
  rows <- mapM as_row E_values ;;
  Ok ((epsilon_0 / 2) * sumR (map (fun v => Np.norm v ^ 2) rows) * dV).

(** The right-hand side handed to [solve_ivp]; it calls [e_total(r)]. *)
Definition ode (t : R) (r : Vec3) : result pyval :=
  E <- call2 e_total (Some r) None ;;
  let norm := Py.norm E in
  Ok (if Rgt_dec norm 1e-8 then Py.truediv E norm else PyArr Np.zeros3).

Section Lines.

Variable solve_ivp : Solver.

(** [for start in starts: sol = solve_ivp(...); fig.add_trace(...)]:
    no handler, an exception leaves the loop. *)
Fixpoint field_lines (fig : Fig) (starts : list Vec3) : result Fig :=
  match starts with
  | [] => Ok fig
  | start :: rest =>
      sol <- solve_ivp ode (0, 5) start (Np.linspace 0 5 100) ;;
      field_lines (fig ++ [sol]) rest
  end.

End Lines.

End Part000.

(** ** trabalho1_campos.py: the script around the evaluator *)

Module Trabalho1Script.
Import Trabalho1.

(** The dict the sidebar appends for one charge: keys ['q'], ['pos'],
    ['valor_µC'] and ['id']. *)
Record CargaDict : Type :=
  mkCargaDict { carga : Carga; valor_uC : R; id : nat }.

(** The body of [for i in range(numero_cargas)]; [valor] and [xyz] are
    what the widgets of charge [i] return. *)
Definition nova_carga (i : nat) (valor : R) (xyz : Vec3) : CargaDict :=
  let q_coulomb := valor * 1e-6 in
  mkCargaDict (mkCarga q_coulomb xyz) valor (i + 1).

Definition cargas_da_barra (numero_cargas : nat) (entrada : nat -> R * Vec3)
  : list CargaDict :=
  map (fun i => nova_carga i (fst (entrada i)) (snd (entrada i)))
      (seq 0 numero_cargas).

(** [sum(c['q'] for c in cargas) * 1e6] *)
Definition carga_total (cargas : list CargaDict) : R :=
  fold_left (fun acc c => acc + q (carga c)) cargas 0 * 1e6.

(** The sign shown in the sidebar, the one of the table, and the colour
    and size of the marker. *)
Definition sinal_barra (valor : R) : string :=
  if Rgt_dec valor 0 then "Positiva (+)" else "Negativa (-)".

Definition sinal_tabela (c : CargaDict) : string :=
  if Rgt_dec (q (carga c)) 0 then "Positiva" else "Negativa".

Definition cor (c : CargaDict) : string :=
  if Rgt_dec (q (carga c)) 0 then "#EF4444" else "#3B82F6".

Definition tamanho (c : CargaDict) : R := 15 + Rabs (valor_uC c) * 3.

(** [grid_valores = np.linspace(-3, 3, densidade_grid)] and
    [pontos_grid = np.vstack([X.ravel(), Y.ravel(), Z.ravel()]).T] for
    [X, Y, Z = np.meshgrid(grid_valores, grid_valores, grid_valores)]. *)
Definition grid_valores (densidade_grid : nat) : list R :=
  Np.linspace (-3) 3 densidade_grid.

Definition vstack_meshgrid (xs : list R) : list Vec3 :=
  flat_map (fun y =>
    flat_map (fun x => map (fun z => mkVec x y z) xs) xs) xs.

Definition pontos_grid (densidade_grid : nat) : list Vec3 :=
  vstack_meshgrid (grid_valores densidade_grid).

(** The three lists filled by [for ponto in pontos_grid]. *)
Record Cones : Type :=
  mkCones { vetores_campo : list Vec3;
            intensidades : list R;
            posicoes_validas : list Vec3 }.

Definition cone_passo (cargas : list Carga) (st : Cones) (ponto : Vec3)
  : Cones :=
  let E := calcular_campo_eletrico ponto cargas in
  let intensidade := Np.norm E in
  if Rgt_dec intensidade 1e-3 then
    if Rlt_dec intensidade 1e8 then
      mkCones (vetores_campo st ++ [E /: intensidade])
              (intensidades st ++ [intensidade])
              (posicoes_validas st ++ [ponto])
    else st
  else st.

Definition cones_do_grid (cargas : list Carga) (pontos : list Vec3) : Cones :=
  fold_left (cone_passo cargas) pontos (mkCones [] [] []).

End Trabalho1Script.

(** ** trabalho2_forcas.py: the script around [calcular_forca_coulomb] *)

Module Trabalho2Script.
Import Trabalho2.

(** [f"Q{i+1}"] *)
Definition nome_de (i : nat) : string :=
  ("Q" ++ NilEmpty.string_of_uint (Nat.to_uint (i + 1)))%string.

(** The dict appended for fixed charge [i]; its key ['valor_µC'] is read
    by the legend only. *)
Definition nova_fixa (i : nat) (valor : R) (xyz : Vec3) : CargaFixa :=
  mkFixa (mkCarga (valor * 1e-6) xyz) (nome_de i).

Definition cargas_da_barra (num_cargas : nat) (entrada : nat -> R * Vec3)
  : list CargaFixa :=
  map (fun i => nova_fixa i (fst (entrada i)) (snd (entrada i)))
      (seq 0 num_cargas).

(** [q_teste = st.session_state.teste_valor * 1e-6] *)
Definition q_teste_de (teste_valor : R) : R := teste_valor * 1e-6.

(** [magnitude_resultante = np.linalg.norm(forca_resultante)] and the three
    decisions taken on it: the direction is shown when it exceeds 1e-10,
    equilibrium is reported below 1e-6, the resultant arrow is drawn above
    1e-12. *)
Definition magnitude_resultante (forca_resultante : Vec3) : R :=
  Np.norm forca_resultante.

Definition direcao_definida (magnitude_resultante : R) : bool :=
  if Rgt_dec magnitude_resultante 1e-10 then true else false.

Definition equilibrio (magnitude_resultante : R) : bool :=
  if Rlt_dec magnitude_resultante 1e-6 then true else false.

(** An arrow drawn from the test charge: the line ends at [ponto_final],
    the cone there points along [vetor_visual]. *)
Record Seta : Type := mkSeta { ponto_final : Vec3; vetor_visual : Vec3 }.

Definition seta (escala : R) (pos_teste : Vec3) (vetor : Vec3) : Seta :=
  let escala_visual := escala * 1e9 in
  let vetor_visual := escala_visual *: vetor in
  mkSeta (pos_teste + vetor_visual)%V vetor_visual.

(** [if mostrar_componentes and forcas_individuais: for forca in ...:
    if forca['magnitude'] > 1e-12: ...] *)
Definition setas_componentes (mostrar_componentes : bool) (escala : R)
           (pos_teste : Vec3) (forcas_individuais : list Forca) : list Seta :=
  if mostrar_componentes then
    flat_map (fun forca =>
                if Rgt_dec (magnitude forca) 1e-12
                then [seta escala pos_teste (vetor forca)]
                else [])
             forcas_individuais
  else [].

(** [if magnitude_resultante > 1e-12: ...] *)
Definition seta_resultante (escala : R) (pos_teste : Vec3)
           (forca_resultante : Vec3) : option Seta :=
  if Rgt_dec (magnitude_resultante forca_resultante) 1e-12
  then Some (seta escala pos_teste forca_resultante)
  else None.

(** The rows of the table, in nanonewtons. *)
Record LinhaTabela : Type :=
  mkLinha { De : string; Fx_nN : R; Fy_nN : R; Fz_nN : R; F_nN : R }.

Definition RESULTANTE : string := "🔴 RESULTANTE".

Definition linha_forca (forca : Forca) : LinhaTabela :=
  mkLinha (origem forca)
          (vx (vetor forca) * 1e9) (vy (vetor forca) * 1e9)
          (vz (vetor forca) * 1e9) (magnitude forca * 1e9).

Definition linha_resultante (forca_resultante : Vec3) : LinhaTabela :=
  mkLinha RESULTANTE
          (vx forca_resultante * 1e9) (vy forca_resultante * 1e9)
          (vz forca_resultante * 1e9)
          (magnitude_resultante forca_resultante * 1e9).

(** [if forcas_individuais: dados = [...]; dados.append(resultante)]; no
    table otherwise. *)
Definition dados (forcas_individuais : list Forca) (forca_resultante : Vec3)
  : list LinhaTabela :=
  match forcas_individuais with
  | [] => []
  | _ :: _ =>
      map linha_forca forcas_individuais ++ [linha_resultante forca_resultante]
  end.

(** [highlight_row]: one style per column of the row. *)
Definition highlight_row (row : LinhaTabela) : list string :=
  if String.eqb (De row) RESULTANTE
  then repeat "background-color: #FEE2E2; font-weight: bold;"%string 5
  else repeat ""%string 5.

End Trabalho2Script.

(** ** [calcular_forca_coulomb] on dicts that may lack a key

    The same loop with the three subscriptions written out in the order the
    body performs them: [carga['pos']], [carga['q']], [carga['nome']].  A
    subscription of a missing key raises [KeyError] with that key. *)

Module Trabalho2Dict.
Import Trabalho2.

Record Dict : Type :=
  mkDict { d_q : option R; d_pos : option Vec3; d_nome : option string }.

Inductive saida (A : Type) : Type :=
| Retorna (a : A)
| KeyError (chave : string).
Arguments Retorna {A} a.
Arguments KeyError {A} chave.

Definition item {A} (chave : string) (v : option A) : saida A :=
  match v with
  | Some a => Retorna a
  | None => KeyError chave
  end.

Fixpoint laco (q_teste : R) (pos_teste : Vec3) (cargas_fixas : list Dict)
         (forcas : list Forca) (forca_resultante : Vec3)
  : saida (list Forca * Vec3) :=
  match cargas_fixas with
  | [] => Retorna (forcas, forca_resultante)
  | d :: resto =>
      match item "pos" (d_pos d) with
      | KeyError k => KeyError k
      | Retorna p =>
          match item "q" (d_q d) with
          | KeyError k => KeyError k
          | Retorna qv =>
              match item "nome" (d_nome d) with
              | KeyError k => KeyError k
              | Retorna n =>
                  let f := forca_de q_teste pos_teste
                                    (mkFixa (mkCarga qv p) n) in
                  laco q_teste pos_teste resto
                       (forcas ++ [f]) (forca_resultante + vetor f)%V
              end
          end
      end
  end.

Definition calcular_forca_coulomb (q_teste : R) (pos_teste : Vec3)
           (cargas_fixas : list Dict) : saida (list Forca * Vec3) :=
  laco q_teste pos_teste cargas_fixas [] Np.zeros3.

(** The dict of a charge that has its three keys. *)
Definition dict_de (c : CargaFixa) : Dict :=
  mkDict (Some (q (carga c))) (Some (pos (carga c))) (Some (nome c)).

End Trabalho2Dict.

(** ** Transformations of a configuration, used to state how the
    evaluators compose *)

(** Every charge value multiplied by [a]. *)
Definition escalar_carga (a : R) (c : Carga) : Carga :=
  mkCarga (a * q c) (pos c).

(** A charge moved by the vector [t]. *)
Definition transladar (t : Vec3) (c : Carga) : Carga :=
  mkCarga (q c) (pos c + t)%V.

(** Boolean view of [a > b] on reals, for [filter]. *)
Definition Rgtb (a b : R) : bool := if Rgt_dec a b then true else false.

(** ** The contract, in the words of the specification

    [fieldAt] and [potentialAt] are written from the text of the contract,
    with the Coulomb constant and the singularity guard as parameters; the
    theorems below compare them with the functions of the scripts. *)

(** [k_e * q_i * (point - pos_i) / |point - pos_i|^3] *)
Definition coulomb_term (k : R) (p : Vec3) (c : Carga) : Vec3 :=
  ((k * q c) *: (p - pos c)%V) /: (dist p c ^ 3).

(** The charges that are at least [eps] away from [p]. *)
Definition far_from (eps : R) (p : Vec3) (cs : list Carga) : list Carga :=
  filter (fun c => Rleb eps (dist p c)) cs.

Definition fieldAt (k eps : R) (p : Vec3) (cs : list Carga) : Vec3 :=
  sumV (map (coulomb_term k p) (far_from eps p cs)).

(** [k_e * q_i / |point - pos_i|] *)
Definition potential_term (k : R) (p : Vec3) (c : Carga) : R :=
  k * q c / dist p c.

Definition potentialAt (k eps : R) (p : Vec3) (cs : list Carga) : R :=
  sumR (map (potential_term k p) (far_from eps p cs)).

(** The potential of one charge as a function of its value and of the
    distance alone. *)
Definition potential_radial (k eps : R) (charge d : R) : R :=
  if Rlt_dec d eps then 0 else k * charge / d.

(** The sampling grid of the energy estimate of trabalho1: every
    [(x, y, z)] with the three coordinates in [pontos_amostra]. *)
Definition grade (xs : list R) : list Vec3 :=
  flat_map (fun x => flat_map (fun y => map (fun z => mkVec x y z) xs) xs) xs.

(** The Riemann sum of the energy density in the words of the contract:
    [eps0 / 2] times the sum of [|E(p)|^2] over the grid, times the volume
    element [(L / (n - 1))^3]. *)
Definition energy_estimate (eps0 : R) (L : R) (n : nat)
           (E : Vec3 -> Vec3) (grid : list Vec3) : R :=
  (eps0 / 2) * sumR (map (fun p => Np.norm (E p) ^ 2) grid)
  * (L / (INR n - 1)) ^ 3.

(** The polyline a seed leaves in the figure when failures are skipped. *)
Definition tracada (r : result Linha) : Fig :=
  match r with
  | Ok l => [l]
  | Raise _ => []
  end.

(** The figure a list of seeds leaves when the seeds that fail are skipped. *)
Definition tracadas (solve_ivp : Solver) (cargas : list Carga)
           (seeds : list Vec3) : Fig :=
  flat_map (fun s => tracada (Trabalho1Linhas.integrar solve_ivp cargas s))
           seeds.

(** The distance the loop of [calcular_forca_coulomb] divides by, after the
    clamp. *)
Definition distancia_usada (pos_teste : Vec3) (c : Trabalho2.CargaFixa) : R :=
  let d := dist pos_teste (Trabalho2.carga c) in
  if Rlt_dec d 0.01 then 0.01 else d.

(** The grid points whose field the cone loop of trabalho1 keeps: norm
    above 1e-3 and below 1e8. *)
Definition visivel (cargas : list Carga) (ponto : Vec3) : bool :=
  Rgtb (Np.norm (Trabalho1.calcular_campo_eletrico ponto cargas)) 1e-3
  && Rgtb 1e8 (Np.norm (Trabalho1.calcular_campo_eletrico ponto cargas)).

(** The positive charges of a list, the ones field lines start from. *)
Definition positivas (cargas : list Carga) : list Carga :=
  filter (fun c => Rgtb (q c) 0) cargas.

(** ** Concrete configurations used as test inputs *)

Definition origem_xyz : Vec3 := mkVec 0 0 0.
Definition ponto_x1 : Vec3 := mkVec 1 0 0.

(** One microcoulomb at the origin. *)
Definition carga_1uC : Carga := mkCarga 1e-6 origem_xyz.
Definition fixa_1uC : Trabalho2.CargaFixa := Trabalho2.mkFixa carga_1uC "Q1".

(** A solver that evaluates the right-hand side at the initial point before
    anything else (as an explicit Runge-Kutta method does to choose its
    first step) and returns the initial point as the whole trajectory. *)
Definition solver_inicial : Solver :=
  fun f t_span y0 t_eval =>
    _ <- f (fst t_span) y0 ;; Ok [y0].

(** ** Vectors: algebra *)

Lemma vec_ext (u v : Vec3) :
  vx u = vx v -> vy u = vy v -> vz u = vz v -> u = v.
Proof. destruct u, v; simpl; intros -> -> ->; reflexivity. Qed.

Ltac vec := apply vec_ext; simpl; try lra; try (field; auto).

Lemma add_zeros_l (v : Vec3) : (Np.zeros3 + v)%V = v.
Proof. vec. Qed.

Lemma add_zeros_r (v : Vec3) : (v + Np.zeros3)%V = v.
Proof. vec. Qed.

Lemma add_assoc (u v w : Vec3) : (u + (v + w))%V = (u + v + w)%V.
Proof. vec. Qed.

Lemma add_comm (u v : Vec3) : (u + v)%V = (v + u)%V.
Proof. vec. Qed.

Lemma smul_add (a : R) (u v : Vec3) : a *: (u + v)%V = (a *: u + a *: v)%V.
Proof. vec. Qed.

Lemma smul_swap (a b : R) (v : Vec3) : a *: (b *: v) = b *: (a *: v).
Proof. apply vec_ext; simpl; ring. Qed.

Lemma smul_zeros (a : R) : a *: Np.zeros3 = Np.zeros3.
Proof. vec. Qed.

Lemma sumR_cons (x : R) (l : list R) : sumR (x :: l) = x + sumR l.
Proof. reflexivity. Qed.

Lemma sumV_app (l1 l2 : list Vec3) : sumV (l1 ++ l2) = (sumV l1 + sumV l2)%V.
Proof.
  induction l1 as [|v l1 IH]; simpl.
  - now rewrite add_zeros_l.
  - now rewrite IH, add_assoc.
Qed.

Lemma dot_nonneg (v : Vec3) : 0 <= Np.dot v v.
Proof. unfold Np.dot. nra. Qed.

Lemma norm_nonneg (v : Vec3) : 0 <= Np.norm v.
Proof. apply sqrt_pos. Qed.

Lemma norm_sqr (v : Vec3) : Np.norm v ^ 2 = Np.dot v v.
Proof.
  unfold Np.norm. simpl. rewrite Rmult_1_r. apply sqrt_sqrt, dot_nonneg.
Qed.

Lemma norm_smul (a : R) (v : Vec3) : Np.norm (a *: v) = Rabs a * Np.norm v.
Proof.
  unfold Np.norm.
  replace (Np.dot (a *: v) (a *: v)) with (a * a * Np.dot v v)
    by (unfold Np.dot; simpl; ring).
  rewrite sqrt_mult; [|nra|apply dot_nonneg].
  fold (Rsqr a). now rewrite sqrt_Rsqr_abs.
Qed.

Lemma dist_nonneg (p : Vec3) (c : Carga) : 0 <= dist p c.
Proof. apply norm_nonneg. Qed.

Lemma Rleb_true (a b : R) : Rleb a b = true <-> a <= b.
Proof. unfold Rleb. destruct (Rle_dec a b); split; intros; try easy; lra. Qed.

Lemma Rleb_false (a b : R) : Rleb a b = false <-> b < a.
Proof. unfold Rleb. destruct (Rle_dec a b); split; intros; try easy; lra. Qed.

Lemma far_from_app (eps : R) (p : Vec3) (A B : list Carga) :
  far_from eps p (A ++ B) = far_from eps p A ++ far_from eps p B.
Proof. apply filter_app. Qed.

Lemma fieldAt_app (k eps : R) (p : Vec3) (A B : list Carga) :
  fieldAt k eps p (A ++ B) = (fieldAt k eps p A + fieldAt k eps p B)%V.
Proof. unfold fieldAt. now rewrite far_from_app, map_app, sumV_app. Qed.

(** ** The field evaluators as superposition sums *)

Lemma coulomb_term_scaled (k : R) (p : Vec3) (c : Carga) :
  (k * q c / dist p c ^ 3) *: (p - pos c)%V = coulomb_term k p c.
Proof. unfold coulomb_term. apply vec_ext; simpl; unfold Rdiv; ring. Qed.

Lemma campo_passo_cases (p : Vec3) (E : Vec3) (c : Carga) :
  Trabalho1.campo_passo p E c
  = if Rleb 0.05 (dist p c)
    then (E + coulomb_term Trabalho1.K_E p c)%V else E.
Proof.
  unfold Trabalho1.campo_passo, Rleb. fold (dist p c).
  destruct (Rlt_dec (dist p c) 0.05), (Rle_dec 0.05 (dist p c));
    try lra; try reflexivity.
  now rewrite coulomb_term_scaled.
Qed.

Lemma campo_fold (p : Vec3) (cs : list Carga) (E : Vec3) :
  fold_left (Trabalho1.campo_passo p) cs E
  = (E + fieldAt Trabalho1.K_E 0.05 p cs)%V.
Proof.
  unfold fieldAt, far_from.
  revert E. induction cs as [|c cs IH]; intros E; cbn [fold_left filter].
  - cbn. now rewrite add_zeros_r.
  - rewrite IH, campo_passo_cases.
    destruct (Rleb 0.05 (dist p c)); cbn [map sumV fold_right].
    + now rewrite <- add_assoc.
    + reflexivity.
Qed.

Lemma calcular_campo_eletrico_spec (p : Vec3) (cs : list Carga) :
  Trabalho1.calcular_campo_eletrico p cs = fieldAt Trabalho1.K_E 0.05 p cs.
Proof.
  unfold Trabalho1.calcular_campo_eletrico.
  now rewrite campo_fold, add_zeros_l.
Qed.

Lemma e_individual_cases (p : Vec3) (c : Carga) :
  Part000.e_individual p c
  = if Rleb 1e-8 (dist p c) then coulomb_term Part000.k_e p c else Np.zeros3.
Proof.
  unfold Part000.e_individual, Rleb. fold (dist p c).
  destruct (Rlt_dec (dist p c) 1e-8), (Rle_dec 1e-8 (dist p c));
    try lra; reflexivity.
Qed.

Lemma sum_e_individual (p : Vec3) (cs : list Carga) :
  sumV (map (Part000.e_individual p) cs) = fieldAt Part000.k_e 1e-8 p cs.
Proof.
  unfold fieldAt, far_from.
  induction cs as [|c cs IH]; simpl; [reflexivity|].
  rewrite IH, e_individual_cases.
  destruct (Rleb 1e-8 (dist p c)); simpl; [reflexivity|apply add_zeros_l].
Qed.

Lemma py_sum_arrays (vs : list Vec3) (u : Vec3) :
  fold_left Py.add (map PyArr vs) (PyArr u) = PyArr (u + sumV vs)%V.
Proof.
  revert u. induction vs as [|v vs IH]; intros u; simpl.
  - now rewrite add_zeros_r.
  - now rewrite IH, add_assoc.
Qed.

Lemma py_add_int0_l (a : pyval) : Py.add (PyInt 0) a = a.
Proof.
  destruct a as [n|x|v]; simpl; f_equal; try lra.
  unfold Py.bcast. vec.
Qed.

Lemma py_add_int0_r (a : pyval) : Py.add a (PyInt 0) = a.
Proof.
  destruct a as [n|x|v]; simpl; f_equal; try lia; try lra.
  unfold Py.bcast. vec.
Qed.

(** What [e_total] returns: the int [0] of [sum] on the empty list, an array
    otherwise. *)
Lemma e_total_value (p : Vec3) (cs : list Carga) :
  Part000.e_total p cs
  = match cs with
    | [] => PyInt 0
    | _ :: _ => PyArr (fieldAt Part000.k_e 1e-8 p cs)
    end.
Proof.
  unfold Part000.e_total, Py.sum. destruct cs as [|c cs]; [reflexivity|].
  rewrite <- sum_e_individual. cbn [map fold_left].
  rewrite py_add_int0_l, <- (map_map (Part000.e_individual p) PyArr).
  now rewrite py_sum_arrays.
Qed.

Lemma dist_ponto_x1 : dist ponto_x1 carga_1uC = 1.
Proof.
  unfold dist, Np.norm, Np.dot. simpl.
  replace ((1 - 0) * (1 - 0) + (0 - 0) * (0 - 0) + (0 - 0) * (0 - 0)) with 1
    by ring.
  apply sqrt_1.
Qed.

Lemma fieldAt_ponto_x1 (k eps : R) :
  eps <= 1 -> fieldAt k eps ponto_x1 [carga_1uC] = mkVec (k * 1e-6) 0 0.
Proof.
  intros Heps. unfold fieldAt, far_from. simpl.
  rewrite dist_ponto_x1. apply Rleb_true in Heps. rewrite Heps. simpl.
  unfold coulomb_term. rewrite dist_ponto_x1. vec.
Qed.

(** C1 (as stated, for [e_total]): with the constant 8.9875517923e9 the
    formula gives 8987.5517923 N/C at one metre from one microcoulomb;
    [e_total] returns 8990. *)
Lemma e_total_constant_differs :
  Part000.e_total ponto_x1 [carga_1uC]
  <> PyArr (fieldAt 8.9875517923e9 1e-8 ponto_x1 [carga_1uC]).
Proof.
  rewrite e_total_value, !fieldAt_ponto_x1 by lra.
  unfold Part000.k_e. intros H. injection H as H. lra.
Qed.

(** C1 (amended): each field evaluator returns the superposition sum over
    exactly the charges at distance at least its own guard, each term being
    [k * q_i * (p - pos_i) / |p - pos_i|^3] with its own Coulomb constant:
    8.9875517923e9 and 0.05 in [calcular_campo_eletrico], 8.99e9 and 1e-8 in
    [e_total] (on a list that is not empty); a charge below the guard adds
    the zero vector, and both are total functions. *)
Theorem field_evaluators_superposition (p : Vec3) (cs : list Carga) :
  Trabalho1.calcular_campo_eletrico p cs = fieldAt 8.9875517923e9 0.05 p cs
  /\ (cs <> [] ->
      Part000.e_total p cs = PyArr (fieldAt 8.99e9 1e-8 p cs))
  /\ (forall c E, dist p c < 0.05 -> Trabalho1.campo_passo p E c = E)
  /\ (forall c, dist p c < 1e-8 -> Part000.e_individual p c = Np.zeros3).
Proof.
  repeat split.
  - apply calcular_campo_eletrico_spec.
  - intros Hne. rewrite e_total_value. destruct cs; [contradiction|reflexivity].
  - intros c E Hd. unfold Trabalho1.campo_passo. fold (dist p c).
    destruct (Rlt_dec (dist p c) 0.05); [reflexivity|lra].
  - intros c Hd. rewrite e_individual_cases.
    apply Rleb_false in Hd. now rewrite Hd.
Qed.

Lemma field_evaluators_superposition_witness :
  [carga_1uC] <> []
  /\ Part000.e_total ponto_x1 [carga_1uC]
     = PyArr (fieldAt 8.99e9 1e-8 ponto_x1 [carga_1uC]).
Proof.
  split; [discriminate|].
  apply (field_evaluators_superposition ponto_x1 [carga_1uC]). discriminate.
Defined.

(** ** Superposition over a concatenation *)

(** C3: over a concatenation [A ++ B] each field evaluator returns the sum
    of its values over [A] and over [B] (for [e_total] the sum is Python's
    [+] on the returned values); this holds for every pair of lists, so in
    particular for disjoint ones. *)
Theorem field_superposition_app (p : Vec3) (A B : list Carga) :
  Trabalho1.calcular_campo_eletrico p (A ++ B)
  = (Trabalho1.calcular_campo_eletrico p A
     + Trabalho1.calcular_campo_eletrico p B)%V
  /\ Part000.e_total p (A ++ B)
     = Py.add (Part000.e_total p A) (Part000.e_total p B).
Proof.
  split.
  - rewrite !calcular_campo_eletrico_spec. apply fieldAt_app.
  - destruct A as [|a A].
    + cbn [app]. rewrite (e_total_value p []). now rewrite py_add_int0_l.
    + destruct B as [|b B].
      * rewrite app_nil_r, (e_total_value p []). now rewrite py_add_int0_r.
      * rewrite !e_total_value. cbn [app Py.add].
        now rewrite <- fieldAt_app.
Qed.

(** ** The empty charge list *)

Lemma calcular_campo_eletrico_nil (p : Vec3) :
  Trabalho1.calcular_campo_eletrico p [] = Np.zeros3.
Proof. reflexivity. Qed.

Lemma potential_nil (p : Vec3) : Part000.potential p [] = 0.
Proof. reflexivity. Qed.

(** C6 (the code at the failing input): on the empty list [e_total]
    returns the int [0] that [sum] starts from, at every point; that value
    is not an array. *)
Theorem e_total_nil_is_int (p : Vec3) :
  Part000.e_total p [] = PyInt 0
  /\ Part000.e_total p [] <> PyArr Np.zeros3.
Proof. split; [reflexivity|discriminate]. Qed.

(** ** The potential *)

Lemma potential_step_cases (p : Vec3) (V : R) (c : Carga) :
  Part000.potential_step p V c
  = if Rleb 1e-8 (dist p c) then V + potential_term Part000.k_e p c else V.
Proof.
  unfold Part000.potential_step, Rleb, potential_term. fold (dist p c).
  destruct (Rlt_dec (dist p c) 1e-8), (Rle_dec 1e-8 (dist p c));
    try lra; reflexivity.
Qed.

Lemma potential_fold (p : Vec3) (cs : list Carga) (V : R) :
  fold_left (Part000.potential_step p) cs V
  = V + potentialAt Part000.k_e 1e-8 p cs.
Proof.
  unfold potentialAt, far_from.
  revert V. induction cs as [|c cs IH]; intros V; cbn [fold_left filter].
  - cbn. lra.
  - rewrite IH, potential_step_cases.
    destruct (Rleb 1e-8 (dist p c)); cbn [map]; rewrite ?sumR_cons; lra.
Qed.

Lemma potential_single (p : Vec3) (c : Carga) :
  Part000.potential p [c]
  = potential_radial Part000.k_e 1e-8 (q c) (dist p c).
Proof.
  unfold Part000.potential. cbn [fold_left].
  unfold Part000.potential_step, potential_radial. fold (dist p c).
  destruct (Rlt_dec (dist p c) 1e-8); lra.
Qed.

(** Two single charges of the same value seen from the same distance give
    the same potential, whatever the directions. *)
Lemma potential_direction_independent (p p' : Vec3) (c c' : Carga) :
  q c = q c' -> dist p c = dist p' c' ->
  Part000.potential p [c] = Part000.potential p' [c'].
Proof. intros Hq Hd. now rewrite !potential_single, Hq, Hd. Qed.

(** C9: [potential] returns the sum of [k_e * q_i / |p - pos_i|] over
    exactly the charges at distance at least 1e-8 (the others are skipped),
    with the constant [k_e = 8.99e9] of its script; for one charge the value
    is a function of the charge and of the distance alone. *)
Theorem potential_superposition (p : Vec3) (cs : list Carga) :
  Part000.potential p cs = potentialAt 8.99e9 1e-8 p cs
  /\ (forall c,
        Part000.potential p [c] = potential_radial 8.99e9 1e-8 (q c) (dist p c)).
Proof.
  split.
  - unfold Part000.potential. rewrite potential_fold.
    change Part000.k_e with 8.99e9. lra.
  - intros c. apply potential_single.
Qed.

(** ** Comparing the field evaluators of the two scripts *)

Lemma far_from_all (eps : R) (p : Vec3) (cs : list Carga) :
  Forall (fun c => eps <= dist p c) cs -> far_from eps p cs = cs.
Proof.
  unfold far_from. induction 1 as [|c cs Hc _ IH]; cbn [filter].
  - reflexivity.
  - apply Rleb_true in Hc. now rewrite Hc, IH.
Qed.

Lemma Forall_dist_weaken (eps eps' : R) (p : Vec3) (cs : list Carga) :
  eps' <= eps ->
  Forall (fun c => eps <= dist p c) cs ->
  Forall (fun c => eps' <= dist p c) cs.
Proof.
  intros Hle. apply Forall_impl. intros c Hc. lra.
Qed.

Lemma coulomb_term_scale (a k : R) (p : Vec3) (c : Carga) :
  coulomb_term (a * k) p c = a *: coulomb_term k p c.
Proof. unfold coulomb_term. apply vec_ext; simpl; unfold Rdiv; ring. Qed.

Lemma fieldAt_scale (a k eps : R) (p : Vec3) (cs : list Carga) :
  fieldAt (a * k) eps p cs = a *: fieldAt k eps p cs.
Proof.
  unfold fieldAt. induction (far_from eps p cs) as [|c l IH];
    cbn [map sumV fold_right].
  - now rewrite smul_zeros.
  - fold (sumV (map (coulomb_term (a * k) p) l)).
    fold (sumV (map (coulomb_term k p) l)).
    now rewrite IH, coulomb_term_scale, smul_add.
Qed.

Lemma fieldAt_guard (k eps eps' : R) (p : Vec3) (cs : list Carga) :
  eps' <= eps ->
  Forall (fun c => eps <= dist p c) cs ->
  fieldAt k eps p cs = fieldAt k eps' p cs.
Proof.
  intros Hle Hfar. unfold fieldAt.
  rewrite (far_from_all eps), (far_from_all eps'); auto.
  now apply (Forall_dist_weaken eps).
Qed.

Lemma e_total_ratio (p : Vec3) (cs : list Carga) :
  cs <> [] ->
  Forall (fun c => 0.05 <= dist p c) cs ->
  Part000.e_total p cs
  = PyArr ((Part000.k_e / Trabalho1.K_E)
           *: Trabalho1.calcular_campo_eletrico p cs).
Proof.
  intros Hne Hfar.
  rewrite e_total_value, calcular_campo_eletrico_spec.
  destruct cs as [|c cs]; [contradiction|]. f_equal.
  rewrite <- fieldAt_scale, <- (fieldAt_guard _ 0.05 1e-8) by (auto; lra).
  f_equal. unfold Part000.k_e, Trabalho1.K_E. lra.
Qed.

(** C5 (as stated): one metre from one microcoulomb, outside both guards,
    [calcular_campo_eletrico] gives 8987.5517923 and [e_total] 8990. *)
Lemma field_evaluators_differ :
  Forall (fun c => 0.05 <= dist ponto_x1 c) [carga_1uC]
  /\ PyArr (Trabalho1.calcular_campo_eletrico ponto_x1 [carga_1uC])
     <> Part000.e_total ponto_x1 [carga_1uC].
Proof.
  split.
  - constructor; [rewrite dist_ponto_x1; lra|constructor].
  - rewrite calcular_campo_eletrico_spec, e_total_value.
    rewrite !fieldAt_ponto_x1 by lra.
    unfold Trabalho1.K_E, Part000.k_e. intros H. injection H as H. lra.
Qed.

(** C5 (amended): for a charge list that is not empty and a query point at
    distance at least 0.05 from every charge, [e_total] returns the vector
    of [calcular_campo_eletrico] scaled by the ratio of the two Coulomb
    constants, 8.99e9 / 8.9875517923e9: the evaluators differ in the guard
    and in the constant. *)
Theorem field_evaluators_agree_up_to_constant (p : Vec3) (cs : list Carga) :
  cs <> [] ->
  Forall (fun c => 0.05 <= dist p c) cs ->
  Part000.e_total p cs
  = PyArr ((8.99e9 / 8.9875517923e9)
           *: Trabalho1.calcular_campo_eletrico p cs).
Proof. apply e_total_ratio. Qed.

Lemma field_evaluators_agree_up_to_constant_witness :
  Part000.e_total ponto_x1 [carga_1uC]
  = PyArr ((8.99e9 / 8.9875517923e9)
           *: Trabalho1.calcular_campo_eletrico ponto_x1 [carga_1uC]).
Proof.
  apply (field_evaluators_agree_up_to_constant ponto_x1 [carga_1uC]).
  - discriminate.
  - constructor; [rewrite dist_ponto_x1; lra|constructor].
Defined.

(** ** The Coulomb force on the test charge *)

Section Forca.

Import Trabalho2.

Variables (q_teste : R) (pos_teste : Vec3).

Lemma calcular_forca_fold (cs : list CargaFixa) (fs : list Forca) (F : Vec3) :
  fold_left
    (fun '(forcas, forca_resultante) c =>
       let f := forca_de q_teste pos_teste c in
       (forcas ++ [f], (forca_resultante + vetor f)%V))
    cs (fs, F)
  = (fs ++ map (forca_de q_teste pos_teste) cs,
     (F + sumV (map vetor (map (forca_de q_teste pos_teste) cs)))%V).
Proof.
  revert fs F. induction cs as [|c cs IH]; intros fs F; cbn [fold_left map].
  - cbn. now rewrite app_nil_r, add_zeros_r.
  - rewrite IH, <- app_assoc. cbn [app sumV fold_right].
    now rewrite add_assoc.
Qed.

Lemma calcular_forca_coulomb_eq (cs : list CargaFixa) :
  calcular_forca_coulomb q_teste pos_teste cs
  = (map (forca_de q_teste pos_teste) cs,
     sumV (map vetor (map (forca_de q_teste pos_teste) cs))).
Proof.
  unfold calcular_forca_coulomb.
  now rewrite calcular_forca_fold, add_zeros_l.
Qed.

Lemma distancia_usada_pos (c : CargaFixa) : 0 < distancia_usada pos_teste c.
Proof.
  unfold distancia_usada.
  destruct (Rlt_dec (dist pos_teste c) 0.01); lra.
Qed.

Lemma magnitude_forca_de (c : CargaFixa) :
  magnitude (forca_de q_teste pos_teste c)
  = K_E * Rabs (q_teste * q c) / distancia_usada pos_teste c ^ 2.
Proof. reflexivity. Qed.

Lemma magnitude_nonneg (c : CargaFixa) :
  0 <= magnitude (forca_de q_teste pos_teste c).
Proof.
  rewrite magnitude_forca_de.
  pose proof (distancia_usada_pos c) as Hd.
  pose proof (Rabs_pos (q_teste * q c)) as Ha.
  apply Rmult_le_pos.
  - unfold K_E. nra.
  - apply Rlt_le, Rinv_0_lt_compat. nra.
Qed.

(** Every entry is its magnitude times the clamped unit vector, with the
    sign of [q_teste * q]. *)
Lemma vetor_forca_de (c : CargaFixa) :
  vetor (forca_de q_teste pos_teste c)
  = (if Rgt_dec (q_teste * q c) 0
     then magnitude (forca_de q_teste pos_teste c)
     else - magnitude (forca_de q_teste pos_teste c))
    *: ((pos_teste - pos c)%V /: distancia_usada pos_teste c).
Proof.
  unfold forca_de, distancia_usada. fold (dist pos_teste c). cbn [vetor magnitude].
  destruct (Rgt_dec (q_teste * q c) 0); reflexivity.
Qed.

Lemma norm_sdiv (v : Vec3) (d : R) :
  0 < d -> Np.norm (v /: d) = Np.norm v / d.
Proof.
  intros Hd.
  replace (v /: d) with ((/ d) *: v) by (apply vec_ext; simpl; unfold Rdiv; ring).
  rewrite norm_smul, Rabs_pos_eq.
  - unfold Rdiv. ring.
  - apply Rlt_le, Rinv_0_lt_compat, Hd.
Qed.

Lemma norm_vetor_forca_de (c : CargaFixa) :
  Np.norm (vetor (forca_de q_teste pos_teste c))
  = magnitude (forca_de q_teste pos_teste c)
    * (dist pos_teste c / distancia_usada pos_teste c).
Proof.
  rewrite vetor_forca_de, norm_smul, norm_sdiv by apply distancia_usada_pos.
  fold (dist pos_teste c). f_equal.
  pose proof (magnitude_nonneg c) as Hm.
  destruct (Rgt_dec (q_teste * q c) 0).
  - now apply Rabs_pos_eq.
  - rewrite Rabs_Ropp. now apply Rabs_pos_eq.
Qed.

(** Away from the clamp the entry is [q_teste] times the Coulomb term. *)
Lemma vetor_forca_de_far (c : CargaFixa) :
  0.01 <= dist pos_teste c ->
  vetor (forca_de q_teste pos_teste c)
  = q_teste *: coulomb_term K_E pos_teste c.
Proof.
  intros Hd. rewrite vetor_forca_de, magnitude_forca_de.
  unfold distancia_usada, coulomb_term.
  destruct (Rlt_dec (dist pos_teste c) 0.01) as [|_]; [lra|].
  assert (Hne : dist pos_teste c <> 0) by lra.
  destruct (Rgt_dec (q_teste * q c) 0) as [Hpos|Hneg].
  - rewrite Rabs_pos_eq by lra. apply vec_ext; simpl; field; exact Hne.
  - rewrite Rabs_left1 by lra. apply vec_ext; simpl; field; exact Hne.
Qed.

End Forca.

Section ForcaResultante.

Import Trabalho2.

Variables (q_teste : R) (pos_teste : Vec3).

Lemma sumV_smul (a : R) (l : list Vec3) :
  sumV (map (Np.smul a) l) = a *: sumV l.
Proof.
  induction l as [|v l IH]; cbn [map sumV fold_right].
  - now rewrite smul_zeros.
  - fold (sumV (map (Np.smul a) l)). fold (sumV l).
    now rewrite IH, smul_add.
Qed.

Lemma forca_resultante_far (cs : list CargaFixa) :
  Forall (fun c : CargaFixa => 0.01 <= dist pos_teste c) cs ->
  snd (calcular_forca_coulomb q_teste pos_teste cs)
  = q_teste *: sumV (map (coulomb_term K_E pos_teste) (map carga cs)).
Proof.
  intros Hfar. rewrite calcular_forca_coulomb_eq. cbn [snd].
  rewrite <- sumV_smul, !map_map. f_equal.
  apply map_ext_in. intros c Hc.
  rewrite Forall_forall in Hfar. now apply vetor_forca_de_far, Hfar.
Qed.

Lemma forca_resultante_campo (cs : list CargaFixa) :
  Forall (fun c : CargaFixa => 0.05 <= dist pos_teste c) cs ->
  snd (calcular_forca_coulomb q_teste pos_teste cs)
  = q_teste *: Trabalho1.calcular_campo_eletrico pos_teste (map carga cs).
Proof.
  intros Hfar. rewrite forca_resultante_far.
  - rewrite calcular_campo_eletrico_spec. unfold fieldAt.
    rewrite far_from_all; [reflexivity|].
    rewrite Forall_map. exact Hfar.
  - revert Hfar. apply Forall_impl. intros c Hc. lra.
Qed.

Lemma magnitude_pos (c : CargaFixa) :
  q_teste * q c <> 0 -> 0 < magnitude (forca_de q_teste pos_teste c).
Proof.
  intros Hq. rewrite magnitude_forca_de.
  pose proof (distancia_usada_pos pos_teste c) as Hd.
  pose proof (Rabs_pos_lt _ Hq) as Ha.
  apply Rmult_lt_0_compat.
  - unfold K_E. nra.
  - apply Rinv_0_lt_compat. nra.
Qed.

(** The sign convention, entry by entry: a positive multiple of
    [pos_teste - pos] when the product of the charges is positive, a
    negative multiple when it is negative. *)
Lemma forca_de_sign (c : CargaFixa) :
  (q_teste * q c > 0 ->
   exists l, 0 < l
     /\ vetor (forca_de q_teste pos_teste c) = l *: (pos_teste - pos c)%V)
  /\ (q_teste * q c < 0 ->
      exists l, 0 < l
        /\ vetor (forca_de q_teste pos_teste c)
           = (- l) *: (pos_teste - pos c)%V).
Proof.
  pose proof (distancia_usada_pos pos_teste c) as Hd.
  split; intros Hq;
    exists (magnitude (forca_de q_teste pos_teste c)
            / distancia_usada pos_teste c);
    (split;
     [apply Rdiv_lt_0_compat; [apply magnitude_pos; lra|exact Hd]|]);
    rewrite vetor_forca_de;
    destruct (Rgt_dec (q_teste * q c) 0); try lra;
    apply vec_ext; simpl; unfold Rdiv; ring.
Qed.

End ForcaResultante.

Lemma Forall2_map_r_intro {A B} (P : A -> B -> Prop) (f : A -> B) (l : list A) :
  (forall a, In a l -> P a (f a)) -> Forall2 P l (map f l).
Proof.
  induction l as [|a l IH]; intros H; cbn [map]; constructor.
  - apply H. now left.
  - apply IH. intros b Hb. apply H. now right.
Qed.

Lemma Forall_fixa_1uC (eps : R) :
  eps <= 1 ->
  Forall (fun c => eps <= dist ponto_x1 (Trabalho2.carga c)) [fixa_1uC].
Proof.
  intros H. constructor; [|constructor].
  cbn [Trabalho2.carga fixa_1uC]. rewrite dist_ponto_x1. exact H.
Qed.

(** The resultant against [e_total]: outside the clamp (distance at least
    0.01, hence outside the guard 1e-8 too) [q_teste * e_total] is the
    resultant scaled by the ratio of the two Coulomb constants. *)
Lemma forca_resultante_e_total
      (q_teste : R) (pos_teste : Vec3) (cs : list Trabalho2.CargaFixa) :
  cs <> [] ->
  Forall (fun c => 0.01 <= dist pos_teste (Trabalho2.carga c)) cs ->
  Py.mul q_teste (Part000.e_total pos_teste (map Trabalho2.carga cs))
  = PyArr ((Part000.k_e / Trabalho2.K_E)
           *: snd (Trabalho2.calcular_forca_coulomb q_teste pos_teste cs)).
Proof.
  intros Hne Hfar.
  assert (Hfar' : Forall (fun c => 0.01 <= dist pos_teste c)
                         (map Trabalho2.carga cs))
    by (rewrite Forall_map; exact Hfar).
  rewrite forca_resultante_far by exact Hfar.
  rewrite e_total_value.
  destruct (map Trabalho2.carga cs) as [|c0 l] eqn:E.
  { destruct cs; [contradiction|discriminate]. }
  rewrite <- E in *. cbn [Py.mul]. f_equal.
  rewrite <- (fieldAt_guard _ 0.01 1e-8) by (auto; lra).
  replace Part000.k_e with (Part000.k_e / Trabalho2.K_E * Trabalho2.K_E)
    at 1 by (unfold Part000.k_e, Trabalho2.K_E; lra).
  rewrite fieldAt_scale. unfold fieldAt at 1.
  rewrite far_from_all by exact Hfar'.
  apply smul_swap.
Qed.

(** C2 (as stated): one microcoulomb test charge one metre from one
    microcoulomb, outside every guard: the force is 8.9875517923e-3 N along
    x, and [q_t * e_total] is 8.99e-3. *)
Lemma forca_differs_from_q_times_e_total :
  Forall (fun c => 0.01 <= dist ponto_x1 (Trabalho2.carga c)) [fixa_1uC]
  /\ PyArr (snd (Trabalho2.calcular_forca_coulomb 1e-6 ponto_x1 [fixa_1uC]))
     <> Py.mul 1e-6
          (Part000.e_total ponto_x1 (map Trabalho2.carga [fixa_1uC])).
Proof.
  split; [apply Forall_fixa_1uC; lra|].
  rewrite forca_resultante_campo by (apply Forall_fixa_1uC; lra).
  cbn [map Trabalho2.carga fixa_1uC].
  rewrite calcular_campo_eletrico_spec, e_total_value.
  rewrite !fieldAt_ponto_x1 by lra.
  unfold Trabalho1.K_E, Part000.k_e. cbn. intros H. injection H as H. lra.
Qed.

(** C2 (amended): when every fixed charge is at distance at least 0.01 from
    the test position (outside the clamp of [calcular_forca_coulomb] and the
    guard 1e-8 of [e_total]), the resultant of [calcular_forca_coulomb] is
    [q_teste] times the superposition sum of
    [k * q_i * (p - pos_i) / |p - pos_i|^3] over all the charges with the
    force evaluator's own constant [k = 8.9875517923e9]; against [e_total],
    whose constant is 8.99e9, [q_teste * e_total] is the resultant scaled
    by 8.99e9 / 8.9875517923e9 (list not empty).  Each entry follows the
    sign convention: a positive multiple of [pos_teste - pos] (away from
    the source) when [q_teste * q > 0], a negative multiple (toward it) when
    [q_teste * q < 0]. *)
Theorem forca_resultante_q_times_field
        (q_teste : R) (pos_teste : Vec3) (cs : list Trabalho2.CargaFixa) :
  Forall (fun c => 0.01 <= dist pos_teste (Trabalho2.carga c)) cs ->
  snd (Trabalho2.calcular_forca_coulomb q_teste pos_teste cs)
  = q_teste
    *: sumV (map (coulomb_term 8.9875517923e9 pos_teste)
                 (map Trabalho2.carga cs))
  /\ (cs <> [] ->
      Py.mul q_teste (Part000.e_total pos_teste (map Trabalho2.carga cs))
      = PyArr ((8.99e9 / 8.9875517923e9)
               *: snd (Trabalho2.calcular_forca_coulomb q_teste pos_teste cs)))
  /\ Forall2
       (fun c f =>
          (q_teste * q (Trabalho2.carga c) > 0 ->
           exists l, 0 < l
             /\ Trabalho2.vetor f
                = l *: (pos_teste - pos (Trabalho2.carga c))%V)
          /\ (q_teste * q (Trabalho2.carga c) < 0 ->
              exists l, 0 < l
                /\ Trabalho2.vetor f
                   = (- l) *: (pos_teste - pos (Trabalho2.carga c))%V))
       cs (fst (Trabalho2.calcular_forca_coulomb q_teste pos_teste cs)).
Proof.
  intros Hfar. split; [|split].
  - now apply forca_resultante_far.
  - intros Hne. now apply forca_resultante_e_total.
  - rewrite calcular_forca_coulomb_eq. cbn [fst].
    apply Forall2_map_r_intro. intros c _. apply forca_de_sign.
Qed.

Lemma forca_resultante_q_times_field_witness :
  Forall (fun c => 0.01 <= dist ponto_x1 (Trabalho2.carga c)) [fixa_1uC]
  /\ Py.mul 1e-6
       (Part000.e_total ponto_x1 (map Trabalho2.carga [fixa_1uC]))
     = PyArr ((8.99e9 / 8.9875517923e9)
              *: snd (Trabalho2.calcular_forca_coulomb 1e-6 ponto_x1
                        [fixa_1uC])).
Proof.
  split; [apply Forall_fixa_1uC; lra|].
  apply (forca_resultante_q_times_field 1e-6 ponto_x1 [fixa_1uC]).
  - apply Forall_fixa_1uC. lra.
  - discriminate.
Defined.

(** ** Internal consistency of the pair returned by [calcular_forca_coulomb] *)

Lemma dist_origem : dist origem_xyz carga_1uC = 0.
Proof.
  unfold dist, Np.norm, Np.dot. simpl.
  replace ((0 - 0) * (0 - 0) + (0 - 0) * (0 - 0) + (0 - 0) * (0 - 0)) with 0
    by ring.
  apply sqrt_0.
Qed.

(** C10 (the code at the failing input): test charge and fixed charge in
    the same place.  The distance is clamped to 0.01 and then reused to
    normalise [vetor_r], so the returned list holds one entry whose
    [magnitude] is 89.875517923 N while its [vetor] is the zero vector, of
    norm 0: the entry is not consistent. *)
Lemma magnitude_differs_under_clamp :
  fst (Trabalho2.calcular_forca_coulomb 1e-6 origem_xyz [fixa_1uC])
  = [Trabalho2.forca_de 1e-6 origem_xyz fixa_1uC]
  /\ Trabalho2.magnitude (Trabalho2.forca_de 1e-6 origem_xyz fixa_1uC)
     = 89.875517923
  /\ Np.norm (Trabalho2.vetor (Trabalho2.forca_de 1e-6 origem_xyz fixa_1uC))
     = 0
  /\ Trabalho2.magnitude (Trabalho2.forca_de 1e-6 origem_xyz fixa_1uC)
     <> Np.norm (Trabalho2.vetor (Trabalho2.forca_de 1e-6 origem_xyz fixa_1uC)).
Proof.
  assert (Hm : Trabalho2.magnitude (Trabalho2.forca_de 1e-6 origem_xyz fixa_1uC)
               = 89.875517923).
  { rewrite magnitude_forca_de. unfold distancia_usada.
    cbn [Trabalho2.carga fixa_1uC]. rewrite dist_origem.
    destruct (Rlt_dec 0 0.01) as [_|]; [|lra].
    cbn [q carga_1uC]. rewrite Rabs_pos_eq by lra.
    unfold Trabalho2.K_E. lra. }
  assert (Hn : Np.norm (Trabalho2.vetor
                          (Trabalho2.forca_de 1e-6 origem_xyz fixa_1uC)) = 0).
  { rewrite norm_vetor_forca_de. cbn [Trabalho2.carga fixa_1uC].
    rewrite dist_origem. unfold Rdiv. ring. }
  split; [|split; [|split]].
  - now rewrite calcular_forca_coulomb_eq.
  - exact Hm.
  - exact Hn.
  - rewrite Hm, Hn. lra.
Qed.

(** What the loop does keep: the resultant is the component-wise sum of
    the [vetor] entries of the returned list, for every input, and an
    entry's [magnitude] is the norm of its [vetor] when its source is at
    distance at least 0.01 from the test position; below 0.01 the norm of
    [vetor] falls short of [magnitude] by the factor distance / 0.01. *)
Lemma calcular_forca_coulomb_consistent
        (q_teste : R) (pos_teste : Vec3) (cs : list Trabalho2.CargaFixa) :
  snd (Trabalho2.calcular_forca_coulomb q_teste pos_teste cs)
  = sumV (map Trabalho2.vetor
              (fst (Trabalho2.calcular_forca_coulomb q_teste pos_teste cs)))
  /\ Forall2
       (fun c f =>
          (0.01 <= dist pos_teste (Trabalho2.carga c) ->
           Trabalho2.magnitude f = Np.norm (Trabalho2.vetor f))
          /\ (dist pos_teste (Trabalho2.carga c) < 0.01 ->
              Np.norm (Trabalho2.vetor f)
              = Trabalho2.magnitude f
                * (dist pos_teste (Trabalho2.carga c) / 0.01)))
       cs (fst (Trabalho2.calcular_forca_coulomb q_teste pos_teste cs)).
Proof.
  rewrite calcular_forca_coulomb_eq. cbn [fst snd]. split; [reflexivity|].
  apply Forall2_map_r_intro. intros c _.
  rewrite norm_vetor_forca_de. unfold distancia_usada. cbv zeta.
  destruct (Rlt_dec (dist pos_teste (Trabalho2.carga c)) 0.01);
    split; intros Hd; try lra.
  field. lra.
Qed.

(** ** The tangent of the field lines *)

(** trabalho1: the tangent is a total function; it divides only when the
    norm exceeds 1e-6 and returns the zero vector otherwise. *)
Lemma equacao_diferencial_guarded (cargas : list Carga) (t : R) (p : Vec3) :
  (Np.norm (Trabalho1.calcular_campo_eletrico p cargas) > 1e-6 ->
   Trabalho1.equacao_diferencial cargas t p
   = Trabalho1.calcular_campo_eletrico p cargas
     /: Np.norm (Trabalho1.calcular_campo_eletrico p cargas)
   /\ Np.norm (Trabalho1.calcular_campo_eletrico p cargas) <> 0)
  /\ (Np.norm (Trabalho1.calcular_campo_eletrico p cargas) <= 1e-6 ->
      Trabalho1.equacao_diferencial cargas t p = Np.zeros3).
Proof.
  unfold Trabalho1.equacao_diferencial. cbv zeta.
  destruct (Rgt_dec (Np.norm (Trabalho1.calcular_campo_eletrico p cargas)) 1e-6);
    split; intros H; try lra.
  - split; [reflexivity|lra].
  - reflexivity.
Qed.

(** C8 (the code at the failing input): in part_000 the tangent [ode]
    calls [e_total(r)] with one argument, so at every point, for every [t],
    evaluating it raises [TypeError]; no vector is returned. *)
Theorem ode_raises_TypeError (t : R) (r : Vec3) :
  Part000.ode t r = Raise TypeError.
Proof. reflexivity. Qed.

(** ** Batches of field lines *)

Section Lotes.

Variable solve_ivp : Solver.

(** part_000: once the integration of a seed raises, the loop is left with
    that exception, whatever seeds remain. *)
Lemma field_lines_app (fig : Fig) (pre rest : list Vec3) (ls : list Linha) :
  Forall2 (fun y l =>
             solve_ivp Part000.ode (0, 5) y (Np.linspace 0 5 100) = Ok l)
          pre ls ->
  Part000.field_lines solve_ivp fig (pre ++ rest)
  = Part000.field_lines solve_ivp (fig ++ ls) rest.
Proof.
  intros H. revert fig. induction H as [|y l pre ls Hy _ IH]; intros fig.
  - now rewrite app_nil_r.
  - cbn [app Part000.field_lines]. rewrite Hy. cbn [bind].
    rewrite IH, <- app_assoc. reflexivity.
Qed.

End Lotes.

(** C7 (the code at the failing input): in part_000 the loop over the
    seeds has no handler.  When the seeds before [s] integrate and the
    integration of [s] raises [e], the whole batch ends with [e]: the lines
    already traced and the seeds that remain are lost. *)
Theorem field_lines_abort_on_failure
        (solve_ivp : Solver) (fig : Fig) (pre : list Vec3) (ls : list Linha)
        (s : Vec3) (rest : list Vec3) (e : exn) :
  Forall2 (fun y l =>
             solve_ivp Part000.ode (0, 5) y (Np.linspace 0 5 100) = Ok l)
          pre ls ->
  solve_ivp Part000.ode (0, 5) s (Np.linspace 0 5 100) = Raise e ->
  Part000.field_lines solve_ivp fig (pre ++ s :: rest) = Raise e.
Proof.
  intros Hpre Hs. rewrite (field_lines_app _ _ _ _ ls Hpre).
  cbn [Part000.field_lines]. now rewrite Hs.
Qed.

Lemma field_lines_abort_on_failure_witness :
  Part000.field_lines solver_inicial [] [origem_xyz; ponto_x1]
  = Raise TypeError.
Proof.
  apply (field_lines_abort_on_failure solver_inicial [] [] [] origem_xyz
                                      [ponto_x1] TypeError).
  - constructor.
  - reflexivity.
Defined.

(** trabalho1: the same loop with [try]/[except: pass].  It is a total
    function; the figure it leaves holds the lines of exactly the seeds
    whose integration returned, in order, and every seed is tried. *)
Section LinhasTrabalho1.

Import Trabalho1Linhas.

Variable rng : Type.
Variable direcao_aleatoria : rng -> Vec3 * rng.
Variable solve_ivp : Solver.

Lemma repetir_tracadas (cargas : list Carga) (carga : Carga) (n : nat) :
  forall (fig : Fig) (g : rng),
    repetir rng n (linha_passo rng direcao_aleatoria solve_ivp cargas carga)
            (fig, g)
    = (fig ++ tracadas solve_ivp cargas
                (fst (sementes_carga rng direcao_aleatoria n carga g)),
       snd (sementes_carga rng direcao_aleatoria n carga g)).
Proof.
  induction n as [|n IH]; intros fig g; cbn [repetir sementes_carga].
  - cbn. now rewrite app_nil_r.
  - unfold linha_passo at 2.
    destruct (direcao_aleatoria g) as [direcao g'].
    destruct (sementes_carga rng direcao_aleatoria n carga g')
      as [l g''] eqn:Hl.
    unfold tracadas. cbn [fst snd flat_map]. fold (tracadas solve_ivp cargas l).
    unfold integrar at 1.
    destruct (solve_ivp _ _ _ _) as [solucao|e];
      rewrite IH, Hl; cbn [fst snd tracada app].
    + now rewrite <- app_assoc.
    + reflexivity.
Qed.

Lemma linhas_fold_tracadas (cargas : list Carga) (l : list Carga) :
  forall (fig : Fig) (g : rng),
    fold_left
      (fun st carga =>
         if Rgt_dec (q carga) 0
         then repetir rng n_linhas
                (linha_passo rng direcao_aleatoria solve_ivp cargas carga) st
         else st)
      l (fig, g)
    = (fig ++ tracadas solve_ivp cargas (fst (sementes rng direcao_aleatoria l g)),
       snd (sementes rng direcao_aleatoria l g)).
Proof.
  induction l as [|carga l IH]; intros fig g; cbn [fold_left sementes].
  - cbn. now rewrite app_nil_r.
  - destruct (Rgt_dec (q carga) 0).
    + rewrite repetir_tracadas, IH.
      destruct (sementes_carga rng direcao_aleatoria n_linhas carga g)
        as [l1 g1].
      cbn [fst snd].
      destruct (sementes rng direcao_aleatoria l g1) as [l2 g2].
      cbn [fst snd]. unfold tracadas.
      now rewrite flat_map_app, app_assoc.
    + apply IH.
Qed.

Lemma linhas_de_campo_skips_failures (cargas : list Carga) (fig : Fig) (g : rng) :
  linhas_de_campo rng direcao_aleatoria solve_ivp cargas (fig, g)
  = (fig ++ flat_map (fun s => tracada (integrar solve_ivp cargas s))
                     (fst (sementes rng direcao_aleatoria cargas g)),
     snd (sementes rng direcao_aleatoria cargas g)).
Proof. apply linhas_fold_tracadas. Qed.

End LinhasTrabalho1.

(** ** The energy estimate *)

Lemma sumR_app (l1 l2 : list R) : sumR (l1 ++ l2) = sumR l1 + sumR l2.
Proof.
  induction l1 as [|x l1 IH]; cbn [app]; rewrite ?sumR_cons.
  - cbn. lra.
  - rewrite IH. lra.
Qed.

Section Somas.

Variable h : Vec3 -> R.

Lemma soma_z (x y : R) (zs : list R) (acc : R) :
  fold_left (fun acc z => acc + h (mkVec x y z)) zs acc
  = acc + sumR (map h (map (fun z => mkVec x y z) zs)).
Proof.
  revert acc. induction zs as [|z zs IH]; intros acc; cbn [fold_left map].
  - cbn. lra.
  - rewrite IH, sumR_cons. lra.
Qed.

Lemma soma_yz (x : R) (ys zs : list R) (acc : R) :
  fold_left
    (fun acc y => fold_left (fun acc z => acc + h (mkVec x y z)) zs acc)
    ys acc
  = acc + sumR (map h (flat_map (fun y => map (fun z => mkVec x y z) zs) ys)).
Proof.
  revert acc. induction ys as [|y ys IH]; intros acc; cbn [fold_left flat_map].
  - cbn. lra.
  - rewrite IH, soma_z, map_app, sumR_app. lra.
Qed.

Lemma soma_xyz (xs ys zs : list R) (acc : R) :
  fold_left
    (fun acc x =>
       fold_left
         (fun acc y => fold_left (fun acc z => acc + h (mkVec x y z)) zs acc)
         ys acc)
    xs acc
  = acc + sumR (map h (flat_map
                         (fun x => flat_map
                                     (fun y => map (fun z => mkVec x y z) zs)
                                     ys)
                         xs)).
Proof.
  revert acc. induction xs as [|x xs IH]; intros acc; cbn [fold_left flat_map].
  - cbn. lra.
  - rewrite IH, soma_yz, map_app, sumR_app. lra.
Qed.

End Somas.

(** trabalho1: [energia_total] is the Riemann sum of the contract on the
    grid of 8 points per axis over [-2, 2]^3, with [L = 4] and [n = 8]; its
    factor [(4/7)^3] is [(L / (n - 1))^3]. *)
Lemma energia_total_riemann (cargas : list Carga) :
  Trabalho1.energia_total cargas
  = energy_estimate 8.8541878128e-12 (2 - (-2)) 8
      (fun p => Trabalho1.calcular_campo_eletrico p cargas)
      (grade (Np.linspace (-2) 2 8))
  /\ (4 / 7) ^ 3 = ((2 - (-2)) / (INR 8 - 1)) ^ 3.
Proof.
  assert (Hv : (4 / 7) ^ 3 = ((2 - (-2)) / (INR 8 - 1)) ^ 3).
  { f_equal. simpl INR. lra. }
  split; [|exact Hv].
  unfold Trabalho1.energia_total, energy_estimate, Trabalho1.energia_soma.
  rewrite <- Hv.
  rewrite (soma_xyz (fun p => Np.dot (Trabalho1.calcular_campo_eletrico p cargas)
                                     (Trabalho1.calcular_campo_eletrico p cargas))).
  fold (grade Trabalho1.pontos_amostra).
  erewrite (map_ext (fun p => Np.norm _ ^ 2)) by (intros; apply norm_sqr).
  unfold Trabalho1.EPSILON_0, Trabalho1.pontos_amostra. lra.
Qed.

Lemma mapM_raise {A B} (f : A -> result B) (e : exn) (x : A) (xs : list A) :
  f x = Raise e -> mapM f (x :: xs) = Raise e.
Proof. intros H. cbn [mapM]. now rewrite H. Qed.

Lemma points_energy_cons :
  exists p ps, Part000.points_energy = p :: ps.
Proof.
  unfold Part000.points_energy, Part000.x_range, Part000.grid_size_energy.
  unfold Np.linspace, Part000.column_stack_meshgrid.
  cbn [seq map flat_map app]. eexists. eexists. reflexivity.
Qed.

(** C4 (the code at the failing input): in part_000 the energy block calls
    [e_total(p)] with one argument at its first grid point, so for every
    charge configuration the computation of [U] raises [TypeError] and no
    estimate is produced. *)
Theorem U_raises_TypeError : Part000.U = Raise TypeError.
Proof.
  destruct points_energy_cons as (p & ps & Hp).
  unfold Part000.U. rewrite Hp.
  now rewrite (mapM_raise _ TypeError).
Qed.

(** ** More on vectors: norms *)

Lemma cauchy_schwarz (u v : Vec3) :
  Np.dot u v * Np.dot u v <= Np.dot u u * Np.dot v v.
Proof.
  destruct u as [a b c], v as [x y z]. unfold Np.dot. simpl.
  pose proof (Rle_0_sqr (a * y - b * x)) as H1.
  pose proof (Rle_0_sqr (a * z - c * x)) as H2.
  pose proof (Rle_0_sqr (b * z - c * y)) as H3.
  unfold Rsqr in *. nra.
Qed.

Lemma dot_le_norms (u v : Vec3) : Np.dot u v <= Np.norm u * Np.norm v.
Proof.
  pose proof (cauchy_schwarz u v) as Hcs.
  pose proof (norm_nonneg u) as Hu. pose proof (norm_nonneg v) as Hv.
  pose proof (norm_sqr u) as Hu2. pose proof (norm_sqr v) as Hv2.
  simpl in Hu2, Hv2. rewrite Rmult_1_r in Hu2, Hv2.
  destruct (Rle_dec (Np.dot u v) 0) as [Hneg|Hpos].
  - apply Rle_trans with 0; [exact Hneg|]. now apply Rmult_le_pos.
  - apply Rnot_le_lt in Hpos.
    apply Rsqr_incr_0_var; [|now apply Rmult_le_pos].
    unfold Rsqr.
    replace (Np.norm u * Np.norm v * (Np.norm u * Np.norm v))
      with ((Np.norm u * Np.norm u) * (Np.norm v * Np.norm v)) by ring.
    now rewrite Hu2, Hv2.
Qed.

Lemma norm_triangle (u v : Vec3) :
  Np.norm (u + v)%V <= Np.norm u + Np.norm v.
Proof.
  pose proof (norm_nonneg u) as Hu. pose proof (norm_nonneg v) as Hv.
  apply Rsqr_incr_0_var; [|lra].
  pose proof (norm_sqr (u + v)%V) as Huv.
  pose proof (norm_sqr u) as Hu2. pose proof (norm_sqr v) as Hv2.
  pose proof (dot_le_norms u v) as Hd.
  simpl in Huv, Hu2, Hv2. rewrite Rmult_1_r in Huv, Hu2, Hv2.
  unfold Rsqr. rewrite Huv.
  replace (Np.dot (u + v)%V (u + v)%V)
    with (Np.dot u u + 2 * Np.dot u v + Np.dot v v)
    by (unfold Np.dot; simpl; ring).
  nra.
Qed.

Lemma norm_zeros : Np.norm Np.zeros3 = 0.
Proof.
  unfold Np.norm, Np.dot. simpl.
  replace (0 * 0 + 0 * 0 + 0 * 0) with 0 by ring. apply sqrt_0.
Qed.

Lemma norm_sumV_le (l : list Vec3) :
  Np.norm (sumV l) <= sumR (map Np.norm l).
Proof.
  induction l as [|v l IH]; cbn [map].
  - cbn. rewrite norm_zeros. lra.
  - rewrite sumR_cons. change (sumV (v :: l)) with (v + sumV l)%V.
    pose proof (norm_triangle v (sumV l)). lra.
Qed.

Lemma norm_sdiv_pos (v : Vec3) (d : R) :
  0 < d -> Np.norm (v /: d) = Np.norm v / d.
Proof.
  intros Hd.
  replace (v /: d) with ((/ d) *: v)
    by (apply vec_ext; simpl; unfold Rdiv; ring).
  rewrite norm_smul, Rabs_pos_eq.
  - unfold Rdiv. ring.
  - apply Rlt_le, Rinv_0_lt_compat, Hd.
Qed.

Lemma norm_unit (v : Vec3) : 0 < Np.norm v -> Np.norm (v /: Np.norm v) = 1.
Proof. intros H. rewrite norm_sdiv_pos by exact H. field. lra. Qed.

Lemma norm_coulomb_term (k : R) (p : Vec3) (c : Carga) :
  0 < dist p c ->
  Np.norm (coulomb_term k p c) = Rabs (k * q c) / dist p c ^ 2.
Proof.
  intros Hd. unfold coulomb_term.
  rewrite norm_sdiv_pos by (apply pow_lt; exact Hd).
  rewrite norm_smul. fold (dist p c). field. lra.
Qed.

(** ** The field of trabalho1: laws it obeys *)

Lemma fieldAt_single (k eps : R) (p : Vec3) (c : Carga) :
  fieldAt k eps p [c]
  = if Rleb eps (dist p c) then coulomb_term k p c else Np.zeros3.
Proof.
  unfold fieldAt, far_from. cbn [filter].
  destruct (Rleb eps (dist p c)); cbn; [apply add_zeros_r|reflexivity].
Qed.

(** X1: the field of one charge obeys the inverse-square law outside the
    guard: at distance [r >= 0.05] its norm is
    [8.9875517923e9 * |q| / r^2]. *)
Theorem campo_inverse_square (p : Vec3) (c : Carga) :
  0.05 <= dist p c ->
  Np.norm (Trabalho1.calcular_campo_eletrico p [c])
  = 8.9875517923e9 * Rabs (q c) / dist p c ^ 2.
Proof.
  intros Hd. rewrite calcular_campo_eletrico_spec, fieldAt_single.
  apply Rleb_true in Hd as Hb. rewrite Hb.
  rewrite norm_coulomb_term by lra. unfold Trabalho1.K_E.
  rewrite Rabs_mult, (Rabs_pos_eq 8.9875517923e9) by lra. reflexivity.
Qed.

Lemma campo_inverse_square_witness :
  Np.norm (Trabalho1.calcular_campo_eletrico ponto_x1 [carga_1uC])
  = 8.9875517923e9 * Rabs (q carga_1uC) / dist ponto_x1 carga_1uC ^ 2.
Proof.
  apply (campo_inverse_square ponto_x1 carga_1uC).
  rewrite dist_ponto_x1. lra.
Defined.

(** Inside the guard a single charge gives no field at all, whatever
    its value: the evaluator returns the zero vector within 0.05 of it. *)
Lemma campo_zero_inside_guard (p : Vec3) (c : Carga) :
  dist p c < 0.05 ->
  Trabalho1.calcular_campo_eletrico p [c] = Np.zeros3.
Proof.
  intros Hd. rewrite calcular_campo_eletrico_spec, fieldAt_single.
  apply Rleb_false in Hd. now rewrite Hd.
Qed.

Lemma campo_zero_inside_guard_witness :
  Trabalho1.calcular_campo_eletrico origem_xyz [carga_1uC] = Np.zeros3.
Proof.
  apply (campo_zero_inside_guard origem_xyz carga_1uC).
  rewrite dist_origem. lra.
Defined.

Lemma dist_escalar (a : R) (p : Vec3) (c : Carga) :
  dist p (escalar_carga a c) = dist p c.
Proof. reflexivity. Qed.

Lemma coulomb_term_escalar (a k : R) (p : Vec3) (c : Carga) :
  coulomb_term k p (escalar_carga a c) = a *: coulomb_term k p c.
Proof.
  unfold coulomb_term. rewrite dist_escalar.
  apply vec_ext; simpl; unfold Rdiv; ring.
Qed.

Lemma fieldAt_escalar (a k eps : R) (p : Vec3) (cs : list Carga) :
  fieldAt k eps p (map (escalar_carga a) cs) = a *: fieldAt k eps p cs.
Proof.
  unfold fieldAt, far_from.
  induction cs as [|c cs IH]; cbn [map filter].
  - cbn. now rewrite smul_zeros.
  - rewrite dist_escalar. destruct (Rleb eps (dist p c)); [|exact IH].
    cbn [map]. change (sumV (?x :: ?l)) with (x + sumV l)%V.
    now rewrite IH, coulomb_term_escalar, smul_add.
Qed.

Lemma campo_linear_in_charges_aux (a : R) (p : Vec3) (cs : list Carga) :
  Trabalho1.calcular_campo_eletrico p (map (escalar_carga a) cs)
  = a *: Trabalho1.calcular_campo_eletrico p cs.
Proof. rewrite !calcular_campo_eletrico_spec. apply fieldAt_escalar. Qed.

(** X2: the field is linear in the charge values: multiplying every charge
    by [a] multiplies the field of [calcular_campo_eletrico] by [a], at
    every point, guard included. *)
Theorem campo_linear_in_charges (a : R) (p : Vec3) (cs : list Carga) :
  Trabalho1.calcular_campo_eletrico p (map (escalar_carga a) cs)
  = a *: Trabalho1.calcular_campo_eletrico p cs.
Proof. apply campo_linear_in_charges_aux. Qed.

Lemma fieldAt_perm (k eps : R) (p : Vec3) (cs cs' : list Carga) :
  Permutation cs cs' -> fieldAt k eps p cs = fieldAt k eps p cs'.
Proof.
  unfold fieldAt, far_from.
  induction 1 as [|c l l' _ IH|c c' l|l l' l'' _ IH1 _ IH2]; cbn [filter].
  - reflexivity.
  - destruct (Rleb eps (dist p c)); cbn [map]; [|exact IH].
    change (sumV (?x :: ?l)) with (x + sumV l)%V. now rewrite IH.
  - destruct (Rleb eps (dist p c)), (Rleb eps (dist p c')); cbn [map];
      try reflexivity.
    change (sumV (?x :: ?y :: ?l)) with (x + (y + sumV l))%V.
    rewrite !add_assoc. f_equal. apply add_comm.
  - now rewrite IH1.
Qed.

(** X3: the order of the charges in the list does not matter: two lists
    that are permutations of each other give the same field. *)
Theorem campo_order_independent (p : Vec3) (cs cs' : list Carga) :
  Permutation cs cs' ->
  Trabalho1.calcular_campo_eletrico p cs
  = Trabalho1.calcular_campo_eletrico p cs'.
Proof. intros H. rewrite !calcular_campo_eletrico_spec. now apply fieldAt_perm. Qed.

Lemma campo_order_independent_witness :
  Trabalho1.calcular_campo_eletrico ponto_x1
    [carga_1uC; mkCarga (-1e-6) ponto_x1]
  = Trabalho1.calcular_campo_eletrico ponto_x1
      [mkCarga (-1e-6) ponto_x1; carga_1uC].
Proof.
  apply (campo_order_independent ponto_x1). apply perm_swap.
Defined.

Lemma dist_transladar (t p : Vec3) (c : Carga) :
  dist (p + t)%V (transladar t c) = dist p c.
Proof.
  unfold dist, transladar. cbn [pos]. f_equal. apply vec_ext; simpl; ring.
Qed.

Lemma coulomb_term_transladar (k : R) (t p : Vec3) (c : Carga) :
  coulomb_term k (p + t)%V (transladar t c) = coulomb_term k p c.
Proof.
  unfold coulomb_term. rewrite dist_transladar. cbn [transladar q pos].
  f_equal. f_equal. apply vec_ext; simpl; ring.
Qed.

(** X4: the field is invariant under translation: moving the query point
    and every charge by the same vector leaves the returned field
    unchanged. *)
Theorem campo_translation_invariant (t p : Vec3) (cs : list Carga) :
  Trabalho1.calcular_campo_eletrico (p + t)%V (map (transladar t) cs)
  = Trabalho1.calcular_campo_eletrico p cs.
Proof.
  rewrite !calcular_campo_eletrico_spec. unfold fieldAt, far_from.
  induction cs as [|c cs IH]; cbn [map filter]; [reflexivity|].
  rewrite dist_transladar.
  destruct (Rleb 0.05 (dist p c)); [|exact IH].
  cbn [map]. change (sumV (?x :: ?l)) with (x + sumV l)%V.
  now rewrite IH, coulomb_term_transladar.
Qed.

(** ** The energy estimate of trabalho1: sign and scaling *)

Lemma energia_soma_sum (cargas : list Carga) :
  Trabalho1.energia_soma cargas
  = sumR (map (fun p => Np.dot (Trabalho1.calcular_campo_eletrico p cargas)
                               (Trabalho1.calcular_campo_eletrico p cargas))
              (grade Trabalho1.pontos_amostra)).
Proof.
  unfold Trabalho1.energia_soma.
  rewrite (soma_xyz (fun p => Np.dot (Trabalho1.calcular_campo_eletrico p cargas)
                                     (Trabalho1.calcular_campo_eletrico p cargas))).
  fold (grade Trabalho1.pontos_amostra). lra.
Qed.

Lemma sumR_nonneg (l : list R) : Forall (fun x => 0 <= x) l -> 0 <= sumR l.
Proof.
  induction 1 as [|x l Hx _ IH]; [cbn; lra|]. rewrite sumR_cons. lra.
Qed.

Lemma sumR_scale (a : R) {A} (f : A -> R) (l : list A) :
  sumR (map (fun x => a * f x) l) = a * sumR (map f l).
Proof.
  induction l as [|x l IH]; cbn [map]; [cbn; lra|].
  rewrite !sumR_cons, IH. lra.
Qed.

(** X6: the energy estimate is never negative, and it is zero when there
    is no charge. *)
Theorem energia_total_nonneg (cargas : list Carga) :
  0 <= Trabalho1.energia_total cargas
  /\ Trabalho1.energia_total [] = 0.
Proof.
  split.
  - unfold Trabalho1.energia_total. rewrite energia_soma_sum.
    apply Rmult_le_pos.
    + apply sumR_nonneg, Forall_forall. intros x Hx.
      apply in_map_iff in Hx as (p & <- & _). apply dot_nonneg.
    + unfold Trabalho1.EPSILON_0. lra.
  - unfold Trabalho1.energia_total. rewrite energia_soma_sum.
    erewrite map_ext with (g := fun _ => 0 * 0).
    + rewrite (sumR_scale 0 (fun _ => 0)). lra.
    + intros p. rewrite calcular_campo_eletrico_nil.
      unfold Np.dot, Np.zeros3. cbn [vx vy vz]. ring.
Qed.

(** X7: the energy estimate is quadratic in the charges: multiplying every
    charge by [a] multiplies the estimate by [a^2]. *)
Theorem energia_total_quadratic (a : R) (cargas : list Carga) :
  Trabalho1.energia_total (map (escalar_carga a) cargas)
  = a ^ 2 * Trabalho1.energia_total cargas.
Proof.
  unfold Trabalho1.energia_total. rewrite !energia_soma_sum.
  rewrite (map_ext _
             (fun p => a ^ 2
                       * Np.dot (Trabalho1.calcular_campo_eletrico p cargas)
                                (Trabalho1.calcular_campo_eletrico p cargas))).
  - rewrite (sumR_scale (a ^ 2)). ring.
  - intros p. rewrite campo_linear_in_charges_aux.
    unfold Np.dot, Np.smul. cbn [vx vy vz]. ring.
Qed.

(** ** The tangent and the cones of trabalho1 *)

(** X8: the tangent handed to the integrator is a unit vector wherever the
    field norm exceeds 1e-6 and the zero vector elsewhere: a field line
    advances at unit speed or stalls. *)
Theorem equacao_diferencial_unit_or_zero
        (cargas : list Carga) (t : R) (p : Vec3) :
  (Np.norm (Trabalho1.calcular_campo_eletrico p cargas) > 1e-6 ->
   Np.norm (Trabalho1.equacao_diferencial cargas t p) = 1)
  /\ (Np.norm (Trabalho1.calcular_campo_eletrico p cargas) <= 1e-6 ->
      Np.norm (Trabalho1.equacao_diferencial cargas t p) = 0).
Proof.
  unfold Trabalho1.equacao_diferencial. cbv zeta.
  destruct (Rgt_dec (Np.norm (Trabalho1.calcular_campo_eletrico p cargas)) 1e-6);
    split; intros H; try lra.
  - apply norm_unit. lra.
  - apply norm_zeros.
Qed.

Lemma Rgtb_true (a b : R) : Rgtb a b = true <-> a > b.
Proof. unfold Rgtb. destruct (Rgt_dec a b); split; intros; try easy; lra. Qed.

Lemma cone_passo_cases (cargas : list Carga) (st : Trabalho1Script.Cones)
      (ponto : Vec3) :
  Trabalho1Script.cone_passo cargas st ponto
  = if visivel cargas ponto
    then Trabalho1Script.mkCones
           (Trabalho1Script.vetores_campo st
              ++ [Trabalho1.calcular_campo_eletrico ponto cargas
                  /: Np.norm (Trabalho1.calcular_campo_eletrico ponto cargas)])
           (Trabalho1Script.intensidades st
              ++ [Np.norm (Trabalho1.calcular_campo_eletrico ponto cargas)])
           (Trabalho1Script.posicoes_validas st ++ [ponto])
    else st.
Proof.
  unfold Trabalho1Script.cone_passo, visivel, Rgtb. cbv zeta.
  destruct (Rgt_dec (Np.norm (Trabalho1.calcular_campo_eletrico ponto cargas))
                    1e-3); cbn [andb]; [|reflexivity].
  destruct (Rlt_dec (Np.norm (Trabalho1.calcular_campo_eletrico ponto cargas))
                    1e8) as [Hlt|Hge];
    destruct (Rgt_dec 1e8
                (Np.norm (Trabalho1.calcular_campo_eletrico ponto cargas)));
    try reflexivity; unfold Rgt in *; contradiction.
Qed.

Lemma cones_fold (cargas : list Carga) (pontos : list Vec3)
      (st : Trabalho1Script.Cones) :
  fold_left (Trabalho1Script.cone_passo cargas) pontos st
  = Trabalho1Script.mkCones
      (Trabalho1Script.vetores_campo st
         ++ map (fun p => Trabalho1.calcular_campo_eletrico p cargas
                          /: Np.norm (Trabalho1.calcular_campo_eletrico p cargas))
                (filter (visivel cargas) pontos))
      (Trabalho1Script.intensidades st
         ++ map (fun p => Np.norm (Trabalho1.calcular_campo_eletrico p cargas))
                (filter (visivel cargas) pontos))
      (Trabalho1Script.posicoes_validas st ++ filter (visivel cargas) pontos).
Proof.
  revert st. induction pontos as [|p pontos IH]; intros st; cbn [fold_left filter].
  - cbn [map]. rewrite !app_nil_r. now destruct st.
  - rewrite IH, cone_passo_cases.
    destruct (visivel cargas p); [|reflexivity].
    cbn [Trabalho1Script.vetores_campo Trabalho1Script.intensidades
         Trabalho1Script.posicoes_validas map].
    now rewrite <- !app_assoc.
Qed.

(** X9: the three lists the cone loop fills stay aligned: the kept
    positions are the grid points whose field norm lies strictly between
    1e-3 and 1e8, in grid order, and entry by entry the intensity is the
    field norm at that position and the vector is the field divided by it;
    so every cone direction has norm 1 and every intensity is inside
    (1e-3, 1e8). *)
Theorem cones_do_grid_aligned (cargas : list Carga) (pontos : list Vec3) :
  Trabalho1Script.posicoes_validas (Trabalho1Script.cones_do_grid cargas pontos)
  = filter (visivel cargas) pontos
  /\ Trabalho1Script.intensidades (Trabalho1Script.cones_do_grid cargas pontos)
     = map (fun p => Np.norm (Trabalho1.calcular_campo_eletrico p cargas))
           (Trabalho1Script.posicoes_validas
              (Trabalho1Script.cones_do_grid cargas pontos))
  /\ Trabalho1Script.vetores_campo (Trabalho1Script.cones_do_grid cargas pontos)
     = map (fun p => Trabalho1.calcular_campo_eletrico p cargas
                     /: Np.norm (Trabalho1.calcular_campo_eletrico p cargas))
           (Trabalho1Script.posicoes_validas
              (Trabalho1Script.cones_do_grid cargas pontos))
  /\ Forall (fun v => Np.norm v = 1)
            (Trabalho1Script.vetores_campo
               (Trabalho1Script.cones_do_grid cargas pontos))
  /\ Forall (fun i => 1e-3 < i < 1e8)
            (Trabalho1Script.intensidades
               (Trabalho1Script.cones_do_grid cargas pontos)).
Proof.
  unfold Trabalho1Script.cones_do_grid. rewrite cones_fold.
  cbn [Trabalho1Script.vetores_campo Trabalho1Script.intensidades
       Trabalho1Script.posicoes_validas app].
  assert (Hvis : forall p, In p (filter (visivel cargas) pontos) ->
            1e-3 < Np.norm (Trabalho1.calcular_campo_eletrico p cargas) < 1e8).
  { intros p Hp. apply filter_In in Hp as [_ Hp].
    unfold visivel in Hp. apply andb_prop in Hp as [H1 H2].
    apply Rgtb_true in H1, H2. lra. }
  split; [reflexivity|]. split; [reflexivity|]. split; [reflexivity|].
  split; apply Forall_forall; intros x Hx;
    apply in_map_iff in Hx as (p & <- & Hp); apply Hvis in Hp.
  - apply norm_unit. lra.
  - exact Hp.
Qed.

(** ** The display grid of trabalho1 *)

Lemma linspace_length (a b : R) (n : nat) : List.length (Np.linspace a b n) = n.
Proof. unfold Np.linspace. now rewrite length_map, length_seq. Qed.

Lemma linspace_bounds (a b : R) (n : nat) :
  a <= b -> Forall (fun x => a <= x <= b) (Np.linspace a b n).
Proof.
  intros Hab. unfold Np.linspace. apply Forall_forall. intros x Hx.
  apply in_map_iff in Hx as (i & <- & Hi). apply in_seq in Hi.
  destruct i as [|i].
  - cbn [INR]. lra.
  - assert (Hle : INR (S i) <= INR (n - 1)) by (apply le_INR; lia).
    assert (Hpos : 0 < INR (S i)) by (apply lt_0_INR; lia).
    assert (HN : 0 < INR (n - 1)) by lra.
    assert (Hr : 0 <= INR (S i) / INR (n - 1) <= 1).
    { split.
      - apply Rlt_le, Rdiv_lt_0_compat; lra.
      - apply Rmult_le_reg_r with (INR (n - 1)); [exact HN|].
        unfold Rdiv. rewrite Rmult_assoc, Rinv_l by lra. lra. }
    replace (a + INR (S i) * ((b - a) / INR (n - 1)))
      with (a + (INR (S i) / INR (n - 1)) * (b - a))
      by (unfold Rdiv; ring).
    nra.
Qed.

Lemma flat_map_length_const {A B} (f : A -> list B) (m : nat) (l : list A) :
  (forall a, List.length (f a) = m) ->
  List.length (flat_map f l) = (List.length l * m)%nat.
Proof.
  intros Hf. induction l as [|a l IH]; cbn [flat_map List.length];
    [reflexivity|].
  rewrite length_app, Hf, IH. lia.
Qed.

(** X10: the display grid has [densidade_grid^3] points and every one of
    them lies in the cube [-3, 3]^3. *)
Theorem pontos_grid_in_cube (densidade_grid : nat) :
  List.length (Trabalho1Script.pontos_grid densidade_grid)
  = (densidade_grid * densidade_grid * densidade_grid)%nat
  /\ Forall (fun p => -3 <= vx p <= 3 /\ -3 <= vy p <= 3 /\ -3 <= vz p <= 3)
            (Trabalho1Script.pontos_grid densidade_grid).
Proof.
  unfold Trabalho1Script.pontos_grid, Trabalho1Script.vstack_meshgrid,
    Trabalho1Script.grid_valores.
  set (xs := Np.linspace (-3) 3 densidade_grid).
  assert (Hlen : List.length xs = densidade_grid) by apply linspace_length.
  assert (Hb : Forall (fun x => -3 <= x <= 3) xs)
    by (apply linspace_bounds; lra).
  rewrite Forall_forall in Hb.
  split.
  - rewrite (flat_map_length_const _ (densidade_grid * densidade_grid)).
    + rewrite Hlen. lia.
    + intros y. rewrite (flat_map_length_const _ densidade_grid).
      * now rewrite Hlen.
      * intros x. now rewrite length_map.
  - apply Forall_forall. intros p Hp.
    apply in_flat_map in Hp as (y & Hy & Hp).
    apply in_flat_map in Hp as (x & Hx & Hp).
    apply in_map_iff in Hp as (z & <- & Hz).
    cbn [vx vy vz]. auto.
Qed.

(** ** The field lines of trabalho1: how many *)

Section ContagemLinhas.

Import Trabalho1Linhas.

Variable rng : Type.
Variable direcao_aleatoria : rng -> Vec3 * rng.
Variable solve_ivp : Solver.

Lemma length_sementes_carga (n : nat) (carga : Carga) (g : rng) :
  List.length (fst (sementes_carga rng direcao_aleatoria n carga g)) = n.
Proof.
  revert g. induction n as [|n IH]; intros g; cbn [sementes_carga].
  - reflexivity.
  - destruct (direcao_aleatoria g) as [d g'].
    specialize (IH g').
    destruct (sementes_carga rng direcao_aleatoria n carga g') as [l g''].
    cbn [fst List.length] in *. now rewrite IH.
Qed.

Lemma length_sementes (cargas : list Carga) (g : rng) :
  List.length (fst (sementes rng direcao_aleatoria cargas g))
  = (12 * List.length (positivas cargas))%nat.
Proof.
  unfold positivas.
  revert g. induction cargas as [|c cargas IH]; intros g;
    cbn [sementes filter]; [reflexivity|].
  unfold Rgtb at 1. destruct (Rgt_dec (q c) 0).
  - pose proof (length_sementes_carga n_linhas c g) as H1.
    destruct (sementes_carga rng direcao_aleatoria n_linhas c g) as [l1 g1].
    specialize (IH g1).
    destruct (sementes rng direcao_aleatoria cargas g1) as [l2 g2].
    cbn [fst List.length] in *. rewrite length_app, H1, IH.
    unfold n_linhas. lia.
  - apply IH.
Qed.

Lemma length_tracadas (cargas : list Carga) (seeds : list Vec3) :
  (List.length (tracadas solve_ivp cargas seeds) <= List.length seeds)%nat.
Proof.
  unfold tracadas. induction seeds as [|s seeds IH]; cbn [flat_map List.length].
  - lia.
  - rewrite length_app. destruct (integrar solve_ivp cargas s); cbn; lia.
Qed.

Lemma linhas_sem_positivas (cargas' cargas : list Carga) (st : Fig * rng) :
  Forall (fun c => q c <= 0) cargas ->
  fold_left
    (fun st carga =>
       if Rgt_dec (q carga) 0
       then repetir rng n_linhas
              (linha_passo rng direcao_aleatoria solve_ivp cargas' carga) st
       else st)
    cargas st
  = st.
Proof.
  induction 1 as [|c cargas Hc _ IH]; cbn [fold_left]; [reflexivity|].
  destruct (Rgt_dec (q c) 0); [lra|exact IH].
Qed.

End ContagemLinhas.

(** X11: field lines start from positive charges only, twelve seeds each:
    the loop adds at most [12 * (number of positive charges)] lines to the
    figure, whatever the solver and the random draws do. *)
Theorem linhas_de_campo_count
        (rng : Type) (direcao_aleatoria : rng -> Vec3 * rng)
        (solve_ivp : Solver) (cargas : list Carga) (fig : Fig) (g : rng) :
  (List.length (fst (Trabalho1Linhas.linhas_de_campo
                  rng direcao_aleatoria solve_ivp cargas (fig, g)))
   <= List.length fig + 12 * List.length (positivas cargas))%nat.
Proof.
  rewrite linhas_de_campo_skips_failures. cbn [fst].
  rewrite length_app.
  pose proof (length_tracadas solve_ivp cargas
                (fst (Trabalho1Linhas.sementes rng direcao_aleatoria cargas g))) as H.
  unfold tracadas in H.
  rewrite (length_sementes rng direcao_aleatoria cargas g) in H. lia.
Qed.

(** X12: when no charge is positive the loop draws nothing: the figure and
    the state of the random generator come back unchanged, and the solver
    is not called. *)
Theorem linhas_de_campo_no_positive
        (rng : Type) (direcao_aleatoria : rng -> Vec3 * rng)
        (solve_ivp : Solver) (cargas : list Carga) (st : Fig * rng) :
  Forall (fun c => q c <= 0) cargas ->
  Trabalho1Linhas.linhas_de_campo rng direcao_aleatoria solve_ivp cargas st
  = st.
Proof. apply linhas_sem_positivas. Qed.

Lemma linhas_de_campo_no_positive_witness :
  Trabalho1Linhas.linhas_de_campo nat (fun n => (ponto_x1, S n))
    solver_inicial [mkCarga (-1e-6) origem_xyz] ([], O)
  = ([], O).
Proof.
  apply (linhas_de_campo_no_positive nat (fun n => (ponto_x1, S n))
           solver_inicial [mkCarga (-1e-6) origem_xyz] ([], O)).
  constructor; [cbn; lra|constructor].
Defined.

(** ** The sidebar of trabalho1 *)

Lemma fold_left_sumR {A} (f : A -> R) (l : list A) (acc : R) :
  fold_left (fun acc x => acc + f x) l acc = acc + sumR (map f l).
Proof.
  revert acc. induction l as [|x l IH]; intros acc; cbn [fold_left map].
  - cbn. lra.
  - rewrite IH, sumR_cons. lra.
Qed.

(** X13: the sidebar builds [numero_cargas] charges labelled 1, 2, ... in
    order, and the total charge shown in microcoulombs is the sum of the
    values entered: the conversions by 1e-6 and 1e6 cancel. *)
Theorem carga_total_round_trip (numero_cargas : nat) (entrada : nat -> R * Vec3) :
  map Trabalho1Script.id
      (Trabalho1Script.cargas_da_barra numero_cargas entrada)
  = seq 1 numero_cargas
  /\ Trabalho1Script.carga_total
       (Trabalho1Script.cargas_da_barra numero_cargas entrada)
     = sumR (map (fun i => fst (entrada i)) (seq 0 numero_cargas)).
Proof.
  unfold Trabalho1Script.carga_total, Trabalho1Script.cargas_da_barra.
  split.
  - rewrite map_map. cbn [Trabalho1Script.id Trabalho1Script.nova_carga].
    rewrite <- seq_shift. apply map_ext. intros i. lia.
  - rewrite fold_left_sumR, map_map.
    cbn [Trabalho1Script.carga Trabalho1Script.nova_carga q].
    rewrite (map_ext _ (fun i => 1e-6 * fst (entrada i)))
      by (intros; lra).
    rewrite (sumR_scale 1e-6). lra.
Qed.

(** X14: the sign shown in the sidebar, the sign of the table and the
    colour of the marker always agree, because [q = valor * 1e-6] has the
    sign of [valor]; a charge of value zero is shown as negative (blue)
    everywhere. *)
Theorem sinais_coerentes (i : nat) (valor : R) (xyz : Vec3) :
  (valor > 0 ->
   Trabalho1Script.sinal_barra valor = "Positiva (+)"%string
   /\ Trabalho1Script.sinal_tabela (Trabalho1Script.nova_carga i valor xyz)
      = "Positiva"%string
   /\ Trabalho1Script.cor (Trabalho1Script.nova_carga i valor xyz)
      = "#EF4444"%string)
  /\ (valor <= 0 ->
      Trabalho1Script.sinal_barra valor = "Negativa (-)"%string
      /\ Trabalho1Script.sinal_tabela (Trabalho1Script.nova_carga i valor xyz)
         = "Negativa"%string
      /\ Trabalho1Script.cor (Trabalho1Script.nova_carga i valor xyz)
         = "#3B82F6"%string).
Proof.
  unfold Trabalho1Script.sinal_barra, Trabalho1Script.sinal_tabela,
    Trabalho1Script.cor.
  cbn [Trabalho1Script.carga Trabalho1Script.nova_carga q].
  destruct (Rgt_dec valor 0), (Rgt_dec (valor * 1e-6) 0);
    split; intros H; try lra; auto.
Qed.

(** ** A bound on the field of trabalho1 *)

Lemma norm_coulomb_term_guard (k eps : R) (p : Vec3) (c : Carga) :
  0 < eps -> eps <= dist p c ->
  Np.norm (coulomb_term k p c) <= Rabs k * Rabs (q c) / eps ^ 2.
Proof.
  intros Heps Hd. rewrite norm_coulomb_term by lra. rewrite Rabs_mult.
  pose proof (Rabs_pos k) as Hk. pose proof (Rabs_pos (q c)) as Hq.
  assert (Hsq : eps ^ 2 <= dist p c ^ 2) by (simpl; nra).
  assert (He2 : 0 < eps ^ 2) by (simpl; nra).
  unfold Rdiv. apply Rmult_le_compat_l; [nra|].
  apply Rinv_le_contravar; assumption.
Qed.

Lemma norm_fieldAt_le (k eps : R) (p : Vec3) (cs : list Carga) :
  0 < eps ->
  Np.norm (fieldAt k eps p cs)
  <= Rabs k / eps ^ 2 * sumR (map (fun c => Rabs (q c)) cs).
Proof.
  intros Heps. unfold fieldAt.
  apply Rle_trans with
    (sumR (map Np.norm (map (coulomb_term k p) (far_from eps p cs)))).
  { apply norm_sumV_le. }
  assert (He2 : 0 < / eps ^ 2) by (apply Rinv_0_lt_compat; simpl; nra).
  pose proof (Rabs_pos k) as Hk.
  unfold far_from. induction cs as [|c cs IH]; cbn [filter map].
  - cbn. lra.
  - rewrite sumR_cons. pose proof (Rabs_pos (q c)) as Hq.
    destruct (Rleb eps (dist p c)) eqn:Hb; cbn [map].
    + rewrite sumR_cons. apply Rleb_true in Hb.
      pose proof (norm_coulomb_term_guard k eps p c Heps Hb) as Hc.
      unfold Rdiv in *. set (e2 := / eps ^ 2) in *.
      rewrite Rmult_plus_distr_l.
      replace (Rabs k * e2 * Rabs (q c)) with (Rabs k * Rabs (q c) * e2)
        by ring.
      lra.
    + unfold Rdiv in *. set (e2 := / eps ^ 2) in *.
      rewrite Rmult_plus_distr_l.
      assert (0 <= Rabs k * e2 * Rabs (q c))
        by (repeat apply Rmult_le_pos; lra).
      lra.
Qed.

(** X5: the guard bounds the field: whatever the query point, the norm of
    the field returned by [calcular_campo_eletrico] is at most
    [8.9875517923e9 / 0.05^2] times the sum of the absolute charges. *)
Theorem campo_bounded_by_guard (p : Vec3) (cs : list Carga) :
  Np.norm (Trabalho1.calcular_campo_eletrico p cs)
  <= 8.9875517923e9 / 0.05 ^ 2 * sumR (map (fun c => Rabs (q c)) cs).
Proof.
  rewrite calcular_campo_eletrico_spec.
  pose proof (norm_fieldAt_le Trabalho1.K_E 0.05 p cs) as H.
  unfold Trabalho1.K_E in *.
  rewrite (Rabs_pos_eq 8.9875517923e9) in H by lra. apply H. lra.
Qed.

(** ** [calcular_forca_coulomb]: closed form and what follows from it *)

Section ForcaLeis.

Import Trabalho2.

Lemma vetor_closed_form (q_teste : R) (pos_teste : Vec3) (c : CargaFixa) :
  vetor (forca_de q_teste pos_teste c)
  = (K_E * (q_teste * q c) / distancia_usada pos_teste c ^ 2)
    *: ((pos_teste - pos c)%V /: distancia_usada pos_teste c).
Proof.
  rewrite vetor_forca_de, magnitude_forca_de.
  destruct (Rgt_dec (q_teste * q c) 0) as [Hpos|Hneg].
  - now rewrite Rabs_pos_eq by lra.
  - rewrite Rabs_left1 by lra. f_equal. unfold Rdiv. ring.
Qed.

Lemma vetor_scale_test_charge (a q_teste : R) (pos_teste : Vec3)
      (c : CargaFixa) :
  vetor (forca_de (a * q_teste) pos_teste c)
  = a *: vetor (forca_de q_teste pos_teste c).
Proof.
  rewrite !vetor_closed_form. apply vec_ext; simpl; unfold Rdiv; ring.
Qed.

Lemma norm_sub_sym (u v : Vec3) : Np.norm (u - v)%V = Np.norm (v - u)%V.
Proof.
  unfold Np.norm. f_equal. unfold Np.dot. simpl. ring.
Qed.

Lemma distancia_usada_ge (pos_teste : Vec3) (c : CargaFixa) :
  0.01 <= distancia_usada pos_teste c
  /\ dist pos_teste c <= distancia_usada pos_teste c.
Proof.
  unfold distancia_usada. cbv zeta.
  destruct (Rlt_dec (dist pos_teste c) 0.01); lra.
Qed.

Lemma magnitude_le (q_teste : R) (pos_teste : Vec3) (c : CargaFixa) :
  magnitude (forca_de q_teste pos_teste c)
  <= K_E * Rabs (q_teste * q c) * 1e4.
Proof.
  rewrite magnitude_forca_de.
  destruct (distancia_usada_ge pos_teste c) as [Hd _].
  pose proof (Rabs_pos (q_teste * q c)) as Ha.
  assert (Hsq : 0.01 ^ 2 <= distancia_usada pos_teste c ^ 2) by (simpl; nra).
  assert (Hinv : / distancia_usada pos_teste c ^ 2 <= / 0.01 ^ 2)
    by (apply Rinv_le_contravar; [simpl; lra|exact Hsq]).
  replace (/ 0.01 ^ 2) with 1e4 in Hinv by (simpl; lra).
  unfold Rdiv, K_E. nra.
Qed.

Lemma norm_vetor_le_magnitude (q_teste : R) (pos_teste : Vec3)
      (c : CargaFixa) :
  Np.norm (vetor (forca_de q_teste pos_teste c))
  <= magnitude (forca_de q_teste pos_teste c).
Proof.
  rewrite norm_vetor_forca_de.
  pose proof (magnitude_nonneg q_teste pos_teste c) as Hm.
  destruct (distancia_usada_ge pos_teste c) as [Hd Hle].
  pose proof (dist_nonneg pos_teste c) as H0.
  assert (Hr : dist pos_teste c / distancia_usada pos_teste c <= 1).
  { apply Rmult_le_reg_r with (distancia_usada pos_teste c); [lra|].
    unfold Rdiv. rewrite Rmult_assoc, Rinv_l by lra. lra. }
  assert (Hr0 : 0 <= dist pos_teste c / distancia_usada pos_teste c).
  { apply Rmult_le_pos; [exact H0|].
    apply Rlt_le, Rinv_0_lt_compat. lra. }
  nra.
Qed.

End ForcaLeis.

(** X15: the force is linear in the test charge, clamp included: with the
    test charge multiplied by [a] every [vetor] entry and the resultant are
    multiplied by [a]. *)
Theorem forca_linear_in_test_charge
        (a q_teste : R) (pos_teste : Vec3) (cs : list Trabalho2.CargaFixa) :
  map Trabalho2.vetor
      (fst (Trabalho2.calcular_forca_coulomb (a * q_teste) pos_teste cs))
  = map (fun f => a *: Trabalho2.vetor f)
        (fst (Trabalho2.calcular_forca_coulomb q_teste pos_teste cs))
  /\ snd (Trabalho2.calcular_forca_coulomb (a * q_teste) pos_teste cs)
     = a *: snd (Trabalho2.calcular_forca_coulomb q_teste pos_teste cs).
Proof.
  rewrite !calcular_forca_coulomb_eq. cbn [fst snd].
  assert (H : map Trabalho2.vetor
                  (map (Trabalho2.forca_de (a * q_teste) pos_teste) cs)
              = map (Np.smul a)
                    (map Trabalho2.vetor
                         (map (Trabalho2.forca_de q_teste pos_teste) cs))).
  { rewrite !map_map. apply map_ext. intros c. apply vetor_scale_test_charge. }
  split.
  - rewrite H. now rewrite (map_map Trabalho2.vetor).
  - now rewrite H, sumV_smul.
Qed.

(** X16: superposition of forces: over a concatenation of charge lists the
    returned entries are the entries of the two lists one after the other,
    and the resultant is the sum of the two resultants. *)
Theorem calcular_forca_coulomb_app
        (q_teste : R) (pos_teste : Vec3) (A B : list Trabalho2.CargaFixa) :
  Trabalho2.calcular_forca_coulomb q_teste pos_teste (A ++ B)
  = (fst (Trabalho2.calcular_forca_coulomb q_teste pos_teste A)
       ++ fst (Trabalho2.calcular_forca_coulomb q_teste pos_teste B),
     (snd (Trabalho2.calcular_forca_coulomb q_teste pos_teste A)
      + snd (Trabalho2.calcular_forca_coulomb q_teste pos_teste B))%V).
Proof.
  rewrite !calcular_forca_coulomb_eq. cbn [fst snd].
  now rewrite !map_app, sumV_app.
Qed.

(** X17: the returned list has one entry per fixed charge, in the order of
    the input, and each entry carries the name of its charge. *)
Theorem forcas_labelled_in_order
        (q_teste : R) (pos_teste : Vec3) (cs : list Trabalho2.CargaFixa) :
  map Trabalho2.origem
      (fst (Trabalho2.calcular_forca_coulomb q_teste pos_teste cs))
  = map Trabalho2.nome cs
  /\ List.length (fst (Trabalho2.calcular_forca_coulomb q_teste pos_teste cs))
     = List.length cs.
Proof.
  rewrite calcular_forca_coulomb_eq. cbn [fst]. split.
  - rewrite map_map. reflexivity.
  - apply length_map.
Qed.

(** X18: bounds kept by the clamp: every entry has
    [0 <= magnitude <= 8.9875517923e9 * |q_teste * q| * 1e4] and a vector no
    longer than its magnitude, and the norm of the resultant is at most the
    sum of the magnitudes. *)
Theorem forcas_bounded
        (q_teste : R) (pos_teste : Vec3) (cs : list Trabalho2.CargaFixa) :
  Forall2
    (fun c f =>
       0 <= Trabalho2.magnitude f
         <= 8.9875517923e9 * Rabs (q_teste * q (Trabalho2.carga c)) * 1e4
       /\ Np.norm (Trabalho2.vetor f) <= Trabalho2.magnitude f)
    cs (fst (Trabalho2.calcular_forca_coulomb q_teste pos_teste cs))
  /\ Np.norm (snd (Trabalho2.calcular_forca_coulomb q_teste pos_teste cs))
     <= sumR (map Trabalho2.magnitude
                  (fst (Trabalho2.calcular_forca_coulomb q_teste pos_teste cs))).
Proof.
  rewrite calcular_forca_coulomb_eq. cbn [fst snd]. split.
  - apply Forall2_map_r_intro. intros c _. split; [split|].
    + apply magnitude_nonneg.
    + apply magnitude_le.
    + apply norm_vetor_le_magnitude.
  - eapply Rle_trans; [apply norm_sumV_le|].
    induction cs as [|c cs IH]; cbn [map]; [cbn; lra|].
    rewrite !sumR_cons.
    pose proof (norm_vetor_le_magnitude q_teste pos_teste c). lra.
Qed.

(** X19: action and reaction: the force the charge [q2] at [p2] exerts on
    [q1] at [p1] is the opposite of the force [q1] at [p1] exerts on [q2]
    at [p2], with the same magnitude, clamp included. *)
Theorem forca_action_reaction
        (q1 q2 : R) (p1 p2 : Vec3) (n1 n2 : string) :
  Trabalho2.vetor
    (Trabalho2.forca_de q1 p1 (Trabalho2.mkFixa (mkCarga q2 p2) n2))
  = (-1) *: Trabalho2.vetor
              (Trabalho2.forca_de q2 p2 (Trabalho2.mkFixa (mkCarga q1 p1) n1))
  /\ Trabalho2.magnitude
       (Trabalho2.forca_de q1 p1 (Trabalho2.mkFixa (mkCarga q2 p2) n2))
     = Trabalho2.magnitude
         (Trabalho2.forca_de q2 p2 (Trabalho2.mkFixa (mkCarga q1 p1) n1)).
Proof.
  assert (Hd : distancia_usada p1 (Trabalho2.mkFixa (mkCarga q2 p2) n2)
               = distancia_usada p2 (Trabalho2.mkFixa (mkCarga q1 p1) n1)).
  { unfold distancia_usada, dist. cbn [Trabalho2.carga pos].
    now rewrite (norm_sub_sym p1 p2). }
  split.
  - rewrite !vetor_closed_form, Hd. cbn [Trabalho2.carga q pos].
    apply vec_ext; simpl; unfold Rdiv; ring.
  - rewrite !magnitude_forca_de, Hd. cbn [Trabalho2.carga q].
    now rewrite (Rmult_comm q1 q2).
Qed.

(** ** The script of trabalho2: equilibrium, arrows and table *)

Lemma sumV_zeros (l : list Vec3) :
  Forall (fun v => v = Np.zeros3) l -> sumV l = Np.zeros3.
Proof.
  induction 1 as [|v l Hv _ IH]; [reflexivity|].
  change (sumV (v :: l)) with (v + sumV l)%V.
  now rewrite Hv, IH, add_zeros_l.
Qed.

Lemma forca_de_zero_test (pos_teste : Vec3) (c : Trabalho2.CargaFixa) :
  Trabalho2.vetor (Trabalho2.forca_de 0 pos_teste c) = Np.zeros3
  /\ Trabalho2.magnitude (Trabalho2.forca_de 0 pos_teste c) = 0.
Proof.
  split.
  - rewrite vetor_closed_form. apply vec_ext; simpl; unfold Rdiv; ring.
  - rewrite magnitude_forca_de, Rmult_0_l, Rabs_R0. unfold Rdiv. ring.
Qed.

(** X20: a test charge of value zero feels nothing: every entry has
    magnitude zero, the resultant is the zero vector, the script reports
    equilibrium and an undefined direction, and no arrow is drawn. *)
Theorem carga_teste_nula
        (pos_teste : Vec3) (cs : list Trabalho2.CargaFixa)
        (escala : R) (mostrar_componentes : bool) :
  snd (Trabalho2.calcular_forca_coulomb
         (Trabalho2Script.q_teste_de 0) pos_teste cs) = Np.zeros3
  /\ Forall (fun f => Trabalho2.magnitude f = 0)
            (fst (Trabalho2.calcular_forca_coulomb
                    (Trabalho2Script.q_teste_de 0) pos_teste cs))
  /\ Trabalho2Script.equilibrio
       (Trabalho2Script.magnitude_resultante
          (snd (Trabalho2.calcular_forca_coulomb
                  (Trabalho2Script.q_teste_de 0) pos_teste cs))) = true
  /\ Trabalho2Script.direcao_definida
       (Trabalho2Script.magnitude_resultante
          (snd (Trabalho2.calcular_forca_coulomb
                  (Trabalho2Script.q_teste_de 0) pos_teste cs))) = false
  /\ Trabalho2Script.seta_resultante escala pos_teste
       (snd (Trabalho2.calcular_forca_coulomb
               (Trabalho2Script.q_teste_de 0) pos_teste cs)) = None
  /\ Trabalho2Script.setas_componentes mostrar_componentes escala pos_teste
       (fst (Trabalho2.calcular_forca_coulomb
               (Trabalho2Script.q_teste_de 0) pos_teste cs)) = [].
Proof.
  replace (Trabalho2Script.q_teste_de 0) with 0
    by (unfold Trabalho2Script.q_teste_de; lra).
  rewrite calcular_forca_coulomb_eq. cbn [fst snd].
  assert (HF : sumV (map Trabalho2.vetor
                         (map (Trabalho2.forca_de 0 pos_teste) cs))
               = Np.zeros3).
  { apply sumV_zeros, Forall_forall. intros v Hv.
    rewrite map_map in Hv. apply in_map_iff in Hv as (c & <- & _).
    apply forca_de_zero_test. }
  rewrite HF.
  unfold Trabalho2Script.equilibrio, Trabalho2Script.direcao_definida,
    Trabalho2Script.seta_resultante, Trabalho2Script.magnitude_resultante.
  rewrite norm_zeros.
  destruct (Rlt_dec 0 1e-6); [|lra].
  destruct (Rgt_dec 0 1e-10); [lra|].
  destruct (Rgt_dec 0 1e-12); [lra|].
  split; [reflexivity|]. split; [|repeat (split; [reflexivity|])].
  - apply Forall_forall. intros f Hf.
    apply in_map_iff in Hf as (c & <- & _). apply forca_de_zero_test.
  - unfold Trabalho2Script.setas_componentes.
    destruct mostrar_componentes; [|reflexivity]. clear HF.
    induction cs as [|c cs IH]; cbn [map flat_map]; [reflexivity|].
    rewrite IH.
    destruct (forca_de_zero_test pos_teste c) as [_ Hm]. rewrite Hm.
    destruct (Rgt_dec 0 1e-12); [lra|reflexivity].
Qed.

(** X21: a test charge midway between two equal charges is in equilibrium:
    the two forces cancel, the resultant is the zero vector and the script
    reports equilibrium. *)
Theorem equilibrio_ponto_medio
        (q_teste qf : R) (pos_teste d : Vec3) (n1 n2 : string) :
  snd (Trabalho2.calcular_forca_coulomb q_teste pos_teste
         [Trabalho2.mkFixa (mkCarga qf (pos_teste + d)%V) n1;
          Trabalho2.mkFixa (mkCarga qf (pos_teste - d)%V) n2])
  = Np.zeros3
  /\ Trabalho2Script.equilibrio
       (Trabalho2Script.magnitude_resultante
          (snd (Trabalho2.calcular_forca_coulomb q_teste pos_teste
                  [Trabalho2.mkFixa (mkCarga qf (pos_teste + d)%V) n1;
                   Trabalho2.mkFixa (mkCarga qf (pos_teste - d)%V) n2])))
     = true.
Proof.
  assert (HF : snd (Trabalho2.calcular_forca_coulomb q_teste pos_teste
                 [Trabalho2.mkFixa (mkCarga qf (pos_teste + d)%V) n1;
                  Trabalho2.mkFixa (mkCarga qf (pos_teste - d)%V) n2])
               = Np.zeros3).
  { rewrite calcular_forca_coulomb_eq. cbn [snd map sumV fold_right].
    rewrite !vetor_closed_form.
    assert (Hd : distancia_usada pos_teste
                   (Trabalho2.mkFixa (mkCarga qf (pos_teste + d)%V) n1)
                 = distancia_usada pos_teste
                     (Trabalho2.mkFixa (mkCarga qf (pos_teste - d)%V) n2)).
    { unfold distancia_usada, dist, Np.norm. cbn [Trabalho2.carga pos].
      replace (Np.dot (pos_teste - (pos_teste + d))%V
                      (pos_teste - (pos_teste + d))%V)
        with (Np.dot (pos_teste - (pos_teste - d))%V
                     (pos_teste - (pos_teste - d))%V)
        by (unfold Np.dot; simpl; ring).
      reflexivity. }
    rewrite Hd. cbn [Trabalho2.carga q pos].
    apply vec_ext; simpl; unfold Rdiv; ring. }
  split; [exact HF|]. rewrite HF.
  unfold Trabalho2Script.equilibrio, Trabalho2Script.magnitude_resultante.
  rewrite norm_zeros. destruct (Rlt_dec 0 1e-6); [reflexivity|lra].
Qed.

Lemma vx_sumV (l : list Vec3) : vx (sumV l) = sumR (map vx l).
Proof. induction l as [|v l IH]; [reflexivity|]. cbn [map]. rewrite sumR_cons, <- IH. reflexivity. Qed.

Lemma vy_sumV (l : list Vec3) : vy (sumV l) = sumR (map vy l).
Proof. induction l as [|v l IH]; [reflexivity|]. cbn [map]. rewrite sumR_cons, <- IH. reflexivity. Qed.

Lemma vz_sumV (l : list Vec3) : vz (sumV l) = sumR (map vz l).
Proof. induction l as [|v l IH]; [reflexivity|]. cbn [map]. rewrite sumR_cons, <- IH. reflexivity. Qed.

Lemma sumR_scale_r {A} (f : A -> R) (a : R) (l : list A) :
  sumR (map (fun x => f x * a) l) = sumR (map f l) * a.
Proof.
  induction l as [|x l IH]; cbn [map]; [cbn; lra|].
  rewrite !sumR_cons, IH. lra.
Qed.

(** X22: the table adds up: when there is at least one fixed charge the
    table has one row per charge followed by the row of the resultant;
    in each of the columns Fx, Fy and Fz the rows of the charges sum to the
    row of the resultant, and the |F| of the resultant is at most the sum
    of the |F| of the charges. *)
Theorem tabela_consistente
        (q_teste : R) (pos_teste : Vec3) (cs : list Trabalho2.CargaFixa) :
  cs <> [] ->
  Trabalho2Script.dados
    (fst (Trabalho2.calcular_forca_coulomb q_teste pos_teste cs))
    (snd (Trabalho2.calcular_forca_coulomb q_teste pos_teste cs))
  = map Trabalho2Script.linha_forca
        (fst (Trabalho2.calcular_forca_coulomb q_teste pos_teste cs))
    ++ [Trabalho2Script.linha_resultante
          (snd (Trabalho2.calcular_forca_coulomb q_teste pos_teste cs))]
  /\ List.length
       (Trabalho2Script.dados
          (fst (Trabalho2.calcular_forca_coulomb q_teste pos_teste cs))
          (snd (Trabalho2.calcular_forca_coulomb q_teste pos_teste cs)))
     = S (List.length cs)
  /\ sumR (map Trabalho2Script.Fx_nN
               (map Trabalho2Script.linha_forca
                    (fst (Trabalho2.calcular_forca_coulomb q_teste pos_teste cs))))
     = Trabalho2Script.Fx_nN
         (Trabalho2Script.linha_resultante
            (snd (Trabalho2.calcular_forca_coulomb q_teste pos_teste cs)))
  /\ sumR (map Trabalho2Script.Fy_nN
               (map Trabalho2Script.linha_forca
                    (fst (Trabalho2.calcular_forca_coulomb q_teste pos_teste cs))))
     = Trabalho2Script.Fy_nN
         (Trabalho2Script.linha_resultante
            (snd (Trabalho2.calcular_forca_coulomb q_teste pos_teste cs)))
  /\ sumR (map Trabalho2Script.Fz_nN
               (map Trabalho2Script.linha_forca
                    (fst (Trabalho2.calcular_forca_coulomb q_teste pos_teste cs))))
     = Trabalho2Script.Fz_nN
         (Trabalho2Script.linha_resultante
            (snd (Trabalho2.calcular_forca_coulomb q_teste pos_teste cs)))
  /\ Trabalho2Script.F_nN
       (Trabalho2Script.linha_resultante
          (snd (Trabalho2.calcular_forca_coulomb q_teste pos_teste cs)))
     <= sumR (map Trabalho2Script.F_nN
                  (map Trabalho2Script.linha_forca
                       (fst (Trabalho2.calcular_forca_coulomb q_teste pos_teste cs)))).
Proof.
  intros Hne. rewrite calcular_forca_coulomb_eq. cbn [fst snd].
  set (fs := map (Trabalho2.forca_de q_teste pos_teste) cs).
  assert (Hfs : fs <> []) by (destruct cs; [contradiction|discriminate]).
  split; [destruct fs; [contradiction|reflexivity]|].
  split.
  { unfold Trabalho2Script.dados. destruct fs as [|f fs'] eqn:E;
      [contradiction|].
    rewrite <- E, length_app, length_map. unfold fs.
    rewrite length_map. cbn. lia. }
  rewrite !map_map.
  cbn [Trabalho2Script.Fx_nN Trabalho2Script.Fy_nN Trabalho2Script.Fz_nN
       Trabalho2Script.F_nN Trabalho2Script.linha_forca
       Trabalho2Script.linha_resultante].
  rewrite !sumR_scale_r.
  rewrite vx_sumV, vy_sumV, vz_sumV, !map_map.
  repeat (split; [reflexivity|]).
  unfold Trabalho2Script.magnitude_resultante.
  apply Rmult_le_compat_r; [lra|].
  eapply Rle_trans; [apply norm_sumV_le|]. unfold fs. rewrite !map_map.
  clear. induction cs as [|c cs IH]; cbn [map]; [cbn; lra|].
  rewrite !sumR_cons.
  pose proof (norm_vetor_le_magnitude q_teste pos_teste c). lra.
Qed.

Lemma tabela_consistente_witness :
  List.length
    (Trabalho2Script.dados
       (fst (Trabalho2.calcular_forca_coulomb 1e-6 ponto_x1 [fixa_1uC]))
       (snd (Trabalho2.calcular_forca_coulomb 1e-6 ponto_x1 [fixa_1uC])))
  = 2%nat.
Proof.
  apply (tabela_consistente 1e-6 ponto_x1 [fixa_1uC]). discriminate.
Defined.

Lemma nome_de_not_RESULTANTE (i : nat) :
  String.eqb (Trabalho2Script.nome_de i) Trabalho2Script.RESULTANTE = false.
Proof. reflexivity. Qed.

Lemma map_const_repeat {A B} (b : B) (l : list A) :
  map (fun _ => b) l = repeat b (List.length l).
Proof. induction l as [|a l IH]; cbn; [reflexivity|now rewrite IH]. Qed.

Lemma dados_nonempty (fs : list Trabalho2.Forca) (F : Vec3) :
  fs <> [] ->
  Trabalho2Script.dados fs F
  = map Trabalho2Script.linha_forca fs ++ [Trabalho2Script.linha_resultante F].
Proof. destruct fs; [contradiction|reflexivity]. Qed.

(** X23: [highlight_row] marks the row of the resultant and no row of a
    charge: on the rows built for the fixed charges of the sidebar, named
    [Q1], [Q2], ..., it returns five empty styles, and on the last row of
    [dados] five times the bold style. *)
Theorem highlight_only_resultante
        (num_cargas : nat) (entrada : nat -> R * Vec3)
        (q_teste : R) (pos_teste : Vec3) :
  (0 < num_cargas)%nat ->
  map Trabalho2Script.highlight_row
      (Trabalho2Script.dados
         (fst (Trabalho2.calcular_forca_coulomb q_teste pos_teste
                 (Trabalho2Script.cargas_da_barra num_cargas entrada)))
         (snd (Trabalho2.calcular_forca_coulomb q_teste pos_teste
                 (Trabalho2Script.cargas_da_barra num_cargas entrada))))
  = repeat (repeat ""%string 5) num_cargas
    ++ [repeat "background-color: #FEE2E2; font-weight: bold;"%string 5].
Proof.
  intros Hn. rewrite calcular_forca_coulomb_eq. cbn [fst snd].
  rewrite dados_nonempty.
  - rewrite map_app. cbn [map]. f_equal.
    unfold Trabalho2Script.cargas_da_barra. rewrite !map_map.
    rewrite (map_ext _ (fun _ => repeat ""%string 5)).
    + now rewrite map_const_repeat, length_seq.
    + intros i. unfold Trabalho2Script.highlight_row.
      cbn [Trabalho2Script.De Trabalho2Script.linha_forca Trabalho2.origem
           Trabalho2.forca_de Trabalho2.nome Trabalho2Script.nova_fixa].
      now rewrite nome_de_not_RESULTANTE.
  - intros H. apply (f_equal (@List.length _)) in H.
    unfold Trabalho2Script.cargas_da_barra in H.
    rewrite !length_map, length_seq in H. cbn in H. lia.
Qed.

Lemma highlight_only_resultante_witness :
  map Trabalho2Script.highlight_row
      (Trabalho2Script.dados
         (fst (Trabalho2.calcular_forca_coulomb 1e-6 origem_xyz
                 (Trabalho2Script.cargas_da_barra 2 (fun _ => (1, ponto_x1)))))
         (snd (Trabalho2.calcular_forca_coulomb 1e-6 origem_xyz
                 (Trabalho2Script.cargas_da_barra 2 (fun _ => (1, ponto_x1))))))
  = repeat (repeat ""%string 5) 2
    ++ [repeat "background-color: #FEE2E2; font-weight: bold;"%string 5].
Proof.
  apply (highlight_only_resultante 2 (fun _ => (1, ponto_x1)) 1e-6 origem_xyz).
  lia.
Defined.

(** ** [calcular_forca_coulomb] and missing keys *)

Lemma forca_de_dict_de (q_teste : R) (pos_teste : Vec3)
      (c : Trabalho2.CargaFixa) :
  Trabalho2.forca_de q_teste pos_teste
    (Trabalho2.mkFixa
       (mkCarga (q (Trabalho2.carga c)) (pos (Trabalho2.carga c)))
       (Trabalho2.nome c))
  = Trabalho2.forca_de q_teste pos_teste c.
Proof. destruct c as [[qc pc] n]. reflexivity. Qed.

Lemma laco_complete (q_teste : R) (pos_teste : Vec3)
      (cs : list Trabalho2.CargaFixa) (rest : list Trabalho2Dict.Dict)
      (fs : list Trabalho2.Forca) (F : Vec3) :
  Trabalho2Dict.laco q_teste pos_teste
    (map Trabalho2Dict.dict_de cs ++ rest) fs F
  = Trabalho2Dict.laco q_teste pos_teste rest
      (fs ++ map (Trabalho2.forca_de q_teste pos_teste) cs)
      (F + sumV (map Trabalho2.vetor
                     (map (Trabalho2.forca_de q_teste pos_teste) cs)))%V.
Proof.
  revert fs F. induction cs as [|c cs IH]; intros fs F; cbn [map app].
  - cbn. now rewrite app_nil_r, add_zeros_r.
  - cbn [Trabalho2Dict.laco Trabalho2Dict.dict_de Trabalho2Dict.item
         Trabalho2Dict.d_pos Trabalho2Dict.d_q Trabalho2Dict.d_nome].
    rewrite forca_de_dict_de, IH, <- app_assoc.
    change (sumV (?x :: ?l)) with (x + sumV l)%V.
    now rewrite add_assoc.
Qed.

(** X25: a charge dict that lacks a key makes the whole call raise
    [KeyError] with the first key missing in the order pos, q, nome,
    whatever complete dicts come before it and whatever follows; in
    particular a dict with ['q'] and ['pos'] but no ['nome'] raises
    [KeyError('nome')], and no partial result is returned. *)
Theorem calcular_forca_coulomb_missing_key
        (q_teste : R) (pos_teste : Vec3)
        (antes : list Trabalho2.CargaFixa) (d : Trabalho2Dict.Dict)
        (depois : list Trabalho2Dict.Dict) :
  (Trabalho2Dict.d_pos d = None ->
   Trabalho2Dict.calcular_forca_coulomb q_teste pos_teste
     (map Trabalho2Dict.dict_de antes ++ d :: depois)
   = Trabalho2Dict.KeyError "pos")
  /\ (Trabalho2Dict.d_pos d <> None -> Trabalho2Dict.d_q d = None ->
      Trabalho2Dict.calcular_forca_coulomb q_teste pos_teste
        (map Trabalho2Dict.dict_de antes ++ d :: depois)
      = Trabalho2Dict.KeyError "q")
  /\ (Trabalho2Dict.d_pos d <> None -> Trabalho2Dict.d_q d <> None ->
      Trabalho2Dict.d_nome d = None ->
      Trabalho2Dict.calcular_forca_coulomb q_teste pos_teste
        (map Trabalho2Dict.dict_de antes ++ d :: depois)
      = Trabalho2Dict.KeyError "nome").
Proof.
  unfold Trabalho2Dict.calcular_forca_coulomb. rewrite laco_complete.
  cbn [Trabalho2Dict.laco]. destruct d as [dq dp dn].
  cbn [Trabalho2Dict.d_pos Trabalho2Dict.d_q Trabalho2Dict.d_nome].
  repeat split.
  - intros ->. reflexivity.
  - intros Hp ->. destruct dp; [reflexivity|contradiction].
  - intros Hp Hq ->. destruct dp; [|contradiction].
    destruct dq; [reflexivity|contradiction].
Qed.

(** ** part_000: the potential and the field of one charge *)

Lemma potential_spec (p : Vec3) (cs : list Carga) :
  Part000.potential p cs = potentialAt Part000.k_e 1e-8 p cs.
Proof. unfold Part000.potential. rewrite potential_fold. lra. Qed.

Lemma potentialAt_perm (k eps : R) (p : Vec3) (cs cs' : list Carga) :
  Permutation cs cs' -> potentialAt k eps p cs = potentialAt k eps p cs'.
Proof.
  unfold potentialAt, far_from.
  induction 1 as [|c l l' _ IH|c c' l|l l' l'' _ IH1 _ IH2]; cbn [filter].
  - reflexivity.
  - destruct (Rleb eps (dist p c)); cbn [map]; rewrite ?sumR_cons; lra.
  - destruct (Rleb eps (dist p c)), (Rleb eps (dist p c')); cbn [map];
      rewrite ?sumR_cons; lra.
  - lra.
Qed.

(** X26: the potential superposes and is linear in the charges: over a
    concatenation it is the sum of the two potentials, and multiplying
    every charge by [a] multiplies it by [a]. *)
Theorem potential_superposes (a : R) (p : Vec3) (A B cs : list Carga) :
  Part000.potential p (A ++ B)
  = Part000.potential p A + Part000.potential p B
  /\ Part000.potential p (map (escalar_carga a) cs)
     = a * Part000.potential p cs.
Proof.
  rewrite !potential_spec. unfold potentialAt. split.
  - now rewrite far_from_app, map_app, sumR_app.
  - unfold far_from. induction cs as [|c cs IH]; cbn [map filter].
    + cbn. lra.
    + rewrite dist_escalar. destruct (Rleb 1e-8 (dist p c)); [|exact IH].
      cbn [map]. rewrite !sumR_cons, IH.
      unfold potential_term. rewrite dist_escalar. cbn [escalar_carga q].
      unfold Rdiv. ring.
Qed.

(** X27: in part_000 the order of the charges does not matter either: two
    lists that are permutations of each other give the same value of
    [e_total] and the same potential. *)
Theorem part000_order_independent (p : Vec3) (cs cs' : list Carga) :
  Permutation cs cs' ->
  Part000.e_total p cs = Part000.e_total p cs'
  /\ Part000.potential p cs = Part000.potential p cs'.
Proof.
  intros H. split.
  - rewrite !e_total_value. destruct cs as [|c cs], cs' as [|c' cs'].
    + reflexivity.
    + apply Permutation_nil in H. discriminate.
    + apply Permutation_sym, Permutation_nil in H. discriminate.
    + f_equal. now apply fieldAt_perm.
  - rewrite !potential_spec. now apply potentialAt_perm.
Qed.

Lemma part000_order_independent_witness :
  Part000.potential ponto_x1 [carga_1uC; mkCarga (-1e-6) origem_xyz]
  = Part000.potential ponto_x1 [mkCarga (-1e-6) origem_xyz; carga_1uC].
Proof.
  apply (part000_order_independent ponto_x1
           [carga_1uC; mkCarga (-1e-6) origem_xyz]
           [mkCarga (-1e-6) origem_xyz; carga_1uC]).
  apply perm_swap.
Defined.

(** X28: for one charge at distance [r >= 1e-8] the field of part_000 has
    norm [8.99e9 * |q| / r^2] and the potential has absolute value
    [8.99e9 * |q| / r], so the norm of the field times the distance is the
    absolute value of the potential. *)
Theorem part000_single_charge (p : Vec3) (c : Carga) :
  1e-8 <= dist p c ->
  Py.norm (Part000.e_total p [c]) = 8.99e9 * Rabs (q c) / dist p c ^ 2
  /\ Rabs (Part000.potential p [c]) = 8.99e9 * Rabs (q c) / dist p c
  /\ Py.norm (Part000.e_total p [c]) * dist p c
     = Rabs (Part000.potential p [c]).
Proof.
  intros Hd.
  assert (HE : Py.norm (Part000.e_total p [c])
               = 8.99e9 * Rabs (q c) / dist p c ^ 2).
  { rewrite e_total_value, fieldAt_single. cbn [Py.norm].
    apply Rleb_true in Hd as Hb. rewrite Hb.
    rewrite norm_coulomb_term by lra. unfold Part000.k_e.
    rewrite Rabs_mult, (Rabs_pos_eq 8.99e9) by lra. reflexivity. }
  assert (HV : Rabs (Part000.potential p [c])
               = 8.99e9 * Rabs (q c) / dist p c).
  { rewrite potential_single. unfold potential_radial, Part000.k_e.
    destruct (Rlt_dec (dist p c) 1e-8); [lra|].
    unfold Rdiv.
    rewrite (Rabs_mult (8.99e9 * q c)), (Rabs_mult 8.99e9),
      (Rabs_pos_eq 8.99e9) by lra.
    rewrite (Rabs_pos_eq (/ dist p c)); [reflexivity|].
    apply Rlt_le, Rinv_0_lt_compat. lra. }
  split; [exact HE|]. split; [exact HV|].
  rewrite HE, HV. field. lra.
Qed.

Lemma part000_single_charge_witness :
  Py.norm (Part000.e_total ponto_x1 [carga_1uC]) * dist ponto_x1 carga_1uC
  = Rabs (Part000.potential ponto_x1 [carga_1uC]).
Proof.
  apply (part000_single_charge ponto_x1 carga_1uC).
  rewrite dist_ponto_x1. lra.
Defined.
